(** * The Three Musketeers: a shallow embedding of threeMusketeers.c

    The board of the C program is [char board[N][N]] with [N = 5]: twenty-five
    bytes laid out row after row.  The functions receive it as
    [char board[][N]], so that [board[row][col]] is the byte at offset
    [row * N + col] from the start of the array, whatever [row] and [col]
    are.  The validators compute subscripts that leave the range [0, N)
    (such as [row - 1] in the top row), so the embedding models the bytes
    around the board together with the board, as a function from offsets to
    bytes; offsets [0 .. 24] are the board. *)

From Stdlib Require Import ZArith List Bool Ascii String Lia.
Import ListNotations.

Local Open Scope char_scope.
Local Open Scope Z_scope.

(** ** Data model *)

(** [#define N 5] *)
Definition N : Z := 5.

(** The bytes at and around the board, addressed by their offset from
    [&board[0][0]]. *)
Definition memory : Type := Z -> ascii.

(** [board[row][col]] as an rvalue. *)
Definition cell (board : memory) (row col : Z) : ascii :=
  board (row * N + col).

(** [board[row][col] = v;] *)
Definition store (board : memory) (row col : Z) (v : ascii) : memory :=
  fun off => if off =? row * N + col then v else board off.

(** The subscripts a C [for (i = 0; i < N; i++)] loop runs through. *)
Definition indices : list Z := map Z.of_nat (seq 0 (Z.to_nat N)).

(** A position of the grid: both subscripts in [0, N). *)
Definition inGrid (row col : Z) : Prop := 0 <= row < N /\ 0 <= col < N.

Definition inGridb (row col : Z) : bool :=
  (0 <=? row) && (row <? N) && (0 <=? col) && (col <? N).

(** What the program prints. *)
Inductive message : Type :=
| MsgInvalidDirection   (* "Invalid direction. Use L/l, R/r, U/u, or D/d." *)
| MsgOutOfBoard         (* "This move gets out of the board or is a wrong move." *)
| MsgNoMusketeers       (* "No Musketeers spotted!." *)
| MsgNoEnemies          (* "No enemies spotted!" *)
| MsgInvalidFormat      (* "Invalid input format. Use i,j=value (e.g., A,5=L)." *)
| MsgPromptMusketeer    (* "Give the Musketeer's move" *)
| MsgPromptEnemy        (* "Give the enemy's move" *)
| MsgInterrupted        (* "Game interrupted. Exiting..." *)
| MsgBoard (rows : list (list ascii))  (* display_board *)
| MsgMusketeersWin      (* "The Musketeers win!" *)
| MsgEnemiesWin.        (* "Cardinal Richelieu's men win!" *)

(** What a function does besides returning: it reads [board[row][col]], with
    the subscripts as the code computes them, it prints, or it saves the
    board ([writeBoard], with the value returned and the file written). *)
Inductive event : Type :=
| Fetch (row col : Z)
| Say (m : message)
| Saved (file : bool * option (list ascii)).

(** A subscript pair that stays inside the grid. *)
Definition fetchInGrid (e : event) : bool :=
  match e with
  | Fetch row col => inGridb row col
  | Say _ | Saved _ => true
  end.

(** ** Computations that read the board and leave a trace *)

Module Eff.

Definition t (A : Type) : Type := memory -> A * list event.

Definition ret {A} (a : A) : t A := fun _ => (a, []).

Definition bind {A B} (c : t A) (k : A -> t B) : t B :=
  fun board =>
    let (a, tr1) := c board in
    let (b, tr2) := k a board in
    (b, tr1 ++ tr2).

(** [board[row][col]] read by a validator. *)
Definition load (row col : Z) : t ascii :=
  fun board => (cell board row col, [Fetch row col]).

Definition printf (m : message) : t unit := fun _ => (tt, [Say m]).

(** C's [a && b]: [b] is evaluated only when [a] is nonzero. *)
Definition and (a b : t bool) : t bool :=
  bind a (fun x => if x then b else ret false).

(** [board[row][col] == c] *)
Definition holds (row col : Z) (c : ascii) : t bool :=
  bind (load row col) (fun x => ret (Ascii.eqb x c)).

(** [if (cond) cnt++;] *)
Definition incrIf (cond : t bool) (cnt : Z) : t Z :=
  bind cond (fun x => ret (if x then cnt + 1 else cnt)).

Definition result {A} (c : t A) (board : memory) : A := fst (c board).
Definition trace {A} (c : t A) (board : memory) : list event := snd (c board).

End Eff.

Notation "x <- c ;; k" := (Eff.bind c (fun x => k))
  (at level 61, c at next level, right associativity).
Notation "c ;;; k" := (Eff.bind c (fun _ => k))
  (at level 61, right associativity).
Infix "&&&" := Eff.and (at level 40, left associativity).

(** ** The move validators *)

(** The direction tests of the source, on the character typed. *)
Definition isUp (direction : ascii) : bool :=
  Ascii.eqb direction "U" || Ascii.eqb direction "u".
Definition isDown (direction : ascii) : bool :=
  Ascii.eqb direction "D" || Ascii.eqb direction "d".
Definition isLeft (direction : ascii) : bool :=
  Ascii.eqb direction "L" || Ascii.eqb direction "l".
Definition isRight (direction : ascii) : bool :=
  Ascii.eqb direction "R" || Ascii.eqb direction "r".

(** [isValidMove]: the source position is on the grid and the direction is
    one of the eight letters. *)
Definition isValidMove (row col : Z) (direction : ascii) : Eff.t bool :=
  cnt <-
    (if (row >=? 0) && (row <? N) && (col >=? 0) && (col <? N) then
       if Ascii.eqb direction "L" || Ascii.eqb direction "l"
          || Ascii.eqb direction "R" || Ascii.eqb direction "r"
          || Ascii.eqb direction "U" || Ascii.eqb direction "u"
          || Ascii.eqb direction "D" || Ascii.eqb direction "d"
       then Eff.ret 1
       else Eff.printf MsgInvalidDirection ;;; Eff.ret 0
     else Eff.printf MsgOutOfBoard ;;; Eff.ret 0) ;;
  Eff.ret (cnt >? 0).

(** [isValidMusketeerMove].  Each of the four tests reads the source cell,
    then the neighbour, and only then looks at the direction and at the
    bound. *)
Definition isValidMusketeerMove (row col : Z) (direction : ascii) : Eff.t bool :=
  ok <- isValidMove row col direction ;;
  cnt <-
    (if ok then
       c1 <- Eff.incrIf (Eff.holds row col "M" &&& Eff.holds (row - 1) col "o"
                         &&& Eff.ret (isUp direction) &&& Eff.ret (row >? 0)) 0 ;;
       c2 <- Eff.incrIf (Eff.holds row col "M" &&& Eff.holds (row + 1) col "o"
                         &&& Eff.ret (isDown direction) &&& Eff.ret (row <? N - 1)) c1 ;;
       c3 <- Eff.incrIf (Eff.holds row col "M" &&& Eff.holds row (col - 1) "o"
                         &&& Eff.ret (isLeft direction) &&& Eff.ret (col >? 0)) c2 ;;
       Eff.incrIf (Eff.holds row col "M" &&& Eff.holds row (col + 1) "o"
                   &&& Eff.ret (isRight direction) &&& Eff.ret (col <? N - 1)) c3
     else Eff.ret 0) ;;
  if cnt >? 0 then Eff.ret true
  else Eff.printf MsgNoMusketeers ;;; Eff.ret false.

(** [isValidEnemyMove].  The four tests have no bound on the neighbour. *)
Definition isValidEnemyMove (row col : Z) (direction : ascii) : Eff.t bool :=
  ok <- isValidMove row col direction ;;
  cnt <-
    (if ok then
       c1 <- Eff.incrIf (Eff.holds row col "o" &&& Eff.holds (row - 1) col "."
                         &&& Eff.ret (isUp direction)) 0 ;;
       c2 <- Eff.incrIf (Eff.holds row col "o" &&& Eff.holds (row + 1) col "."
                         &&& Eff.ret (isDown direction)) c1 ;;
       c3 <- Eff.incrIf (Eff.holds row col "o" &&& Eff.holds row (col - 1) "."
                         &&& Eff.ret (isLeft direction)) c2 ;;
       Eff.incrIf (Eff.holds row col "o" &&& Eff.holds row (col + 1) "."
                   &&& Eff.ret (isRight direction)) c3
     else Eff.ret 0) ;;
  if cnt >? 0 then Eff.ret true
  else Eff.printf MsgNoEnemies ;;; Eff.ret false.

(** ** Applying a move *)

(** The cell [makeMove] writes the mover to.  For a character that is none of
    the eight letters the C variables [newRow] and [newCol] are never
    assigned: [None]. *)
Definition target (row col : Z) (direction : ascii) : option (Z * Z) :=
  if Ascii.eqb direction "l" || Ascii.eqb direction "L" then Some (row, col - 1)
  else if Ascii.eqb direction "r" || Ascii.eqb direction "R" then Some (row, col + 1)
  else if Ascii.eqb direction "u" || Ascii.eqb direction "U" then Some (row - 1, col)
  else if Ascii.eqb direction "d" || Ascii.eqb direction "D" then Some (row + 1, col)
  else None.

(** [makeMove]: [None] when the destination subscripts are indeterminate. *)
Definition makeMove (row col : Z) (direction : ascii) (board : memory)
  (mTurn : bool) : option memory :=
  match target row col direction with
  | Some (newRow, newCol) =>
      let board1 := store board row col "." in
      Some (store board1 newRow newCol (if mTurn then "M" else "o"))
  | None => None
  end.

(** ** Winning conditions *)

(** The body of the two loops of [winMusketeers] at [(i, k)].  C evaluates
    the bound first and reads the neighbour only when it is on the grid. *)
Definition countAdjacent (board : memory) (i k : Z) (cnt : Z) : Z :=
  if Ascii.eqb (cell board i k) "M" then
    let cnt := if (k - 1 >=? 0) && Ascii.eqb (cell board i (k - 1)) "o"
               then cnt + 1 else cnt in
    let cnt := if (k + 1 <? N) && Ascii.eqb (cell board i (k + 1)) "o"
               then cnt + 1 else cnt in
    let cnt := if (i - 1 >=? 0) && Ascii.eqb (cell board (i - 1) k) "o"
               then cnt + 1 else cnt in
    if (i + 1 <? N) && Ascii.eqb (cell board (i + 1) k) "o"
    then cnt + 1 else cnt
  else cnt.

(** The value of [cnt] after the loops.  It is at most 100, far from the
    range of a C [int]. *)
Definition adjacencies (board : memory) : Z :=
  fold_left
    (fun cnt i => fold_left (fun cnt k => countAdjacent board i k cnt) indices cnt)
    indices 0.

Definition winMusketeers (board : memory) : bool :=
  if adjacencies board >? 0 then false else true.

(** [mCount] of row [i] and of column [k] in [winEnemies]. *)
Definition rowCount (board : memory) (i : Z) : Z :=
  fold_left
    (fun mCount k => if Ascii.eqb (cell board i k) "M" then mCount + 1 else mCount)
    indices 0.

Definition colCount (board : memory) (k : Z) : Z :=
  fold_left
    (fun mCount i => if Ascii.eqb (cell board i k) "M" then mCount + 1 else mCount)
    indices 0.

(** [winEnemies]: the first row, then the first column, whose count is 3
    returns 1. *)
Definition winEnemies (board : memory) : bool :=
  if existsb (fun i => rowCount board i =? 3) indices then true
  else if existsb (fun k => colCount board k =? 3) indices then true
  else false.

Definition winGame (board : memory) : bool :=
  if winMusketeers board || winEnemies board then true else false.

(** ** Reading and writing the board *)

(** The characters [readBoard] takes for a cell are ['o'], ['M'] and ['.'];
    a newline or a space is skipped ([k--] repeats the iteration); the end of
    the file or any other character fails.  [readCell] is the run of [fgetc]
    calls that fills one cell. *)
Fixpoint readCell (chars : list ascii) : option (ascii * list ascii) :=
  match chars with
  | [] => None
  | ch :: rest =>
      if negb (Ascii.eqb ch "o") && negb (Ascii.eqb ch "M")
         && negb (Ascii.eqb ch "010") && negb (Ascii.eqb ch " ")
         && negb (Ascii.eqb ch ".")
      then None
      else if negb (Ascii.eqb ch "010") && negb (Ascii.eqb ch " ")
      then Some (ch, rest)
      else readCell rest
  end.

Fixpoint readCells (todo : list (Z * Z)) (chars : list ascii) (board : memory)
  : bool * memory :=
  match todo with
  | [] => (true, board)
  | (i, k) :: todo' =>
      match readCell chars with
      | Some (ch, rest) => readCells todo' rest (store board i k ch)
      | None => (false, board)
      end
  end.

(** [readBoard]: [file] is the content of the file, [None] when [fopen]
    fails.  The result is the value returned and the board as left. *)
Definition readBoard (board : memory) (file : option (list ascii)) : bool * memory :=
  match file with
  | None => (false, board)
  | Some chars => readCells (list_prod indices indices) chars board
  end.

(** The bytes [writeBoard] puts in the file. *)
Definition boardText (board : memory) : list ascii :=
  flat_map
    (fun i =>
       flat_map
         (fun k => cell board i k :: (if k <? N - 1 then [" "] else []))
         indices
       ++ ["010"])
    indices.

(** [writeBoard]: [opens] says whether [fopen] succeeds.  The result is the
    value returned and the content of the file written, if any. *)
Definition writeBoard (board : memory) (opens : bool) : bool * option (list ascii) :=
  if opens then (true, Some (boardText board)) else (false, None).

(** What [display_board] shows: the rows of the board. *)
Definition display_board (board : memory) : message :=
  MsgBoard (map (fun i => map (fun k => cell board i k) indices) indices).

(** ** Parsing a move *)

(** C's [isspace] in the "C" locale. *)
Definition isspace (c : ascii) : bool :=
  Ascii.eqb c " " || Ascii.eqb c "009" || Ascii.eqb c "010"
  || Ascii.eqb c "011" || Ascii.eqb c "012" || Ascii.eqb c "013".

(** The directives of the two [sscanf] formats: white space, which skips
    any run of white space; an ordinary character, which must match; and
    [%c], which stores the next character whatever it is. *)
Inductive directive : Type :=
| White
| Literal (c : ascii)
| ConvChar.

Fixpoint skipSpace (input : list ascii) : list ascii :=
  match input with
  | c :: rest => if isspace c then skipSpace rest else input
  | [] => []
  end.

(** The characters [sscanf] stores, in order; it stops at the first
    directive that fails.  The value [sscanf] returns is their number, or
    [EOF] when the input ends before the first conversion: it is 3 exactly
    when three characters are stored. *)
Fixpoint sscanf (format : list directive) (input : list ascii) : list ascii :=
  match format with
  | [] => []
  | White :: format' => sscanf format' (skipSpace input)
  | Literal c :: format' =>
      match input with
      | x :: rest => if Ascii.eqb x c then sscanf format' rest else []
      | [] => []
      end
  | ConvChar :: format' =>
      match input with
      | x :: rest => x :: sscanf format' rest
      | [] => []
      end
  end.

(** [" %c,%c=%c"] and [" %c,%c = %c"]. *)
Definition formatTight : list directive :=
  [White; ConvChar; Literal ","; ConvChar; Literal "="; ConvChar].
Definition formatSpaced : list directive :=
  [White; ConvChar; Literal ","; ConvChar; White; Literal "="; White; ConvChar].

(** The condition of the parsing [if] of [play]: the direction stored when
    one of the two [sscanf] calls returns 3 (the second is tried only when
    the first does not), [None] when neither does. *)
Definition scanMove (playerMove : list ascii) : option ascii :=
  match sscanf formatTight playerMove with
  | [_; _; direction] => Some direction
  | _ =>
      match sscanf formatSpaced playerMove with
      | [_; _; direction] => Some direction
      | _ => None
      end
  end.

(** A character as the [int] it converts to.  Where [char] is signed, a byte
    above 127 converts to a negative number instead; a row or column obtained
    from it is off the grid either way. *)
Definition code (c : ascii) : Z := Z.of_nat (nat_of_ascii c).

Definition tolower (c : Z) : Z :=
  if (code "A" <=? c) && (c <=? code "Z") then c + 32 else c.

(** [playerMove[n]]; the buffer ends with a NUL. *)
Definition charAt (playerMove : list ascii) (n : nat) : ascii :=
  nth n playerMove "000".

(** [row = tolower(playerMove[0]) - 'a';] and [col = playerMove[2] - '1';] *)
Definition moveRow (playerMove : list ascii) : Z :=
  tolower (code (charAt playerMove 0)) - code "a".
Definition moveCol (playerMove : list ascii) : Z :=
  code (charAt playerMove 2) - code "1".

(** ** The turn loop *)

Record game : Type := Game {
  board : memory;
  musketeersTurn : bool   (* 1: the Musketeers are to move; 0: the enemies *)
}.

(** How one pass through the body of the [while] of [play] ends. *)
Inductive outcome : Type :=
| Continue (g : game)   (* the loop goes on *)
| Interrupted           (* [break] after saving *)
| Undefined.            (* [makeMove] with indeterminate subscripts *)

Definition interruptUpper : list ascii := ["0"; ","; "0"; "="; "E"; "010"].
Definition interruptLower : list ascii := ["0"; ","; "0"; "="; "e"; "010"].

(** [strcmp(a, b) == 0] *)
Definition sameText (a b : list ascii) : bool :=
  if list_eq_dec ascii_dec a b then true else false.

(** [gameInterrupt]: saves the board; [opens] as in [writeBoard].  The event
    carries what [writeBoard] returned, on which the failure message
    depends. *)
Definition gameInterrupt (board : memory) (opens : bool) : list event :=
  [Saved (writeBoard board opens)].

(** The validator of the side to move. *)
Definition validator (mTurn : bool) : Z -> Z -> ascii -> Eff.t bool :=
  if mTurn then isValidMusketeerMove else isValidEnemyMove.

(** One pass through the body of the loop, with [playerMove] the string in
    the buffer [fgets] filled: its characters before the NUL that ends it.
    ([fgets] is given [sizeof(playerMove)], the size of a
    pointer: with pointers of 8 bytes it stores up to 7 characters of the
    line, enough for a move such as [a,1=r] and its newline.) *)
Definition playTurn (opens : bool) (g : game) (playerMove : list ascii)
  : outcome * list event :=
  let prompt :=
    Say (if musketeersTurn g then MsgPromptMusketeer else MsgPromptEnemy) in
  if sameText playerMove interruptUpper || sameText playerMove interruptLower
  then (Interrupted, prompt :: Say MsgInterrupted :: gameInterrupt (board g) opens)
  else
    match scanMove playerMove with
    | Some direction =>
        let row := moveRow playerMove in
        let col := moveCol playerMove in
        let (ok, tr) := validator (musketeersTurn g) row col direction (board g) in
        if ok then
          match makeMove row col direction (board g) (musketeersTurn g) with
          | Some board' =>
              (Continue (Game board' (negb (musketeersTurn g))),
               prompt :: tr ++ [Say (display_board board')])
          | None => (Undefined, prompt :: tr)
          end
        else (Continue g, prompt :: tr)
    | None => (Continue g, [prompt; Say MsgInvalidFormat])
    end.

(** How [play] ends. *)
Inductive ending : Type :=
| MusketeersWon     (* [winMusketeers] holds after the loop *)
| EnemiesWon        (* only [winEnemies] holds after the loop *)
| NoWinner          (* neither holds: the game was interrupted *)
| AwaitingInput     (* the moves supplied are used up and nobody has won *)
| Crashed.          (* undefined behaviour *)

(** The statements of [play] after the loop. *)
Definition announce (opens : bool) (g : game) : ending * game * list event :=
  if winMusketeers (board g)
  then (MusketeersWon, g, Say MsgMusketeersWin :: gameInterrupt (board g) opens)
  else if winEnemies (board g)
  then (EnemiesWon, g, Say MsgEnemiesWin :: gameInterrupt (board g) opens)
  else (NoWinner, g, []).

(** [play] on the successive contents of the buffer, after the introduction
    and the first [display_board]. *)
Fixpoint play (opens : bool) (inputs : list (list ascii)) (g : game)
  : ending * game * list event :=
  if winGame (board g) then announce opens g
  else
    match inputs with
    | [] => (AwaitingInput, g, [])
    | playerMove :: inputs' =>
        match playTurn opens g playerMove with
        | (Continue g', tr) =>
            let '(e, g'', tr') := play opens inputs' g' in (e, g'', tr ++ tr')
        | (Interrupted, tr) =>
            let '(e, g', tr') := announce opens g in (e, g', tr ++ tr')
        | (Undefined, tr) => (Crashed, g, tr)
        end
    end.

(** ** Boards for the examples *)

(** The memory whose board is given by its rows and whose other bytes are all
    [around]. *)
Definition boardOf (rows : list string) (around : ascii) : memory :=
  let bytes := flat_map list_ascii_of_string rows in
  fun off =>
    if (0 <=? off) && (off <? N * N) then nth (Z.to_nat off) bytes around
    else around.

(** ** Counting pieces *)

(** The number of cells of the grid that hold [piece]. *)
Definition countPiece (piece : ascii) (board : memory) : Z :=
  fold_left
    (fun n '(i, k) => if Ascii.eqb (cell board i k) piece then n + 1 else n)
    (list_prod indices indices) 0.

Definition countMusketeers : memory -> Z := countPiece "M".
Definition countEnemies : memory -> Z := countPiece "o".

(** ** Example boards *)

(** A Musketeer in the corner A1 with an enemy to its right and one below;
    the bytes around the board are NUL. *)
Definition cornerBoard : memory :=
  boardOf ["Mo..."; "o...."; "....."; "....M"; "..M.o"]%string "000".

(** ** Closed forms of the validators

    The value each validator returns, without the trace. *)

(** The source position and the direction as [isValidMove] tests them. *)
Definition validSource (row col : Z) (direction : ascii) : bool :=
  inGridb row col
  && (isLeft direction || isRight direction || isUp direction || isDown direction).


(** The value of [isValidMusketeerMove]. *)
Definition musketeerAccepts (board : memory) (row col : Z) (direction : ascii) : bool :=
  validSource row col direction
  && (Ascii.eqb (cell board row col) "M" && Ascii.eqb (cell board (row - 1) col) "o"
        && isUp direction && (row >? 0)
      || Ascii.eqb (cell board row col) "M" && Ascii.eqb (cell board (row + 1) col) "o"
           && isDown direction && (row <? N - 1)
      || Ascii.eqb (cell board row col) "M" && Ascii.eqb (cell board row (col - 1)) "o"
           && isLeft direction && (col >? 0)
      || Ascii.eqb (cell board row col) "M" && Ascii.eqb (cell board row (col + 1)) "o"
           && isRight direction && (col <? N - 1)).

(** The value of [isValidEnemyMove]. *)
Definition enemyAccepts (board : memory) (row col : Z) (direction : ascii) : bool :=
  validSource row col direction
  && (Ascii.eqb (cell board row col) "o" && Ascii.eqb (cell board (row - 1) col) "."
        && isUp direction
      || Ascii.eqb (cell board row col) "o" && Ascii.eqb (cell board (row + 1) col) "."
           && isDown direction
      || Ascii.eqb (cell board row col) "o" && Ascii.eqb (cell board row (col - 1)) "."
           && isLeft direction
      || Ascii.eqb (cell board row col) "o" && Ascii.eqb (cell board row (col + 1)) "."
           && isRight direction).

(** A board with an enemy in the corner A1; the bytes around the board are
    ['.'] (0x2E). *)
Definition edgeBoard : memory :=
  boardOf ["o...."; ".M..."; "..M.."; "...M."; "....o"]%string ".".

(** ** Sums *)

Definition zsum (l : list Z) : Z := fold_right Z.add 0 l.

(** 1 for [true], 0 for [false]. *)
Definition ind (x : bool) : Z := if x then 1 else 0.

(** ** Adjacency, in the words of the rules *)

(** [(row', col')] is one orthogonal step from [(row, col)]. *)
Definition adjacent (row col row' col' : Z) : Prop :=
  (row' = row /\ (col' = col - 1 \/ col' = col + 1))
  \/ (col' = col /\ (row' = row - 1 \/ row' = row + 1)).

Definition adjacentb (row col row' col' : Z) : bool :=
  (row' =? row) && ((col' =? col - 1) || (col' =? col + 1))
  || (col' =? col) && ((row' =? row - 1) || (row' =? row + 1)).

(** Some cell of the grid next to [(row, col)] holds an enemy. *)
Definition threatened (board : memory) (row col : Z) : Prop :=
  exists row' col',
    inGrid row' col' /\ adjacent row col row' col' /\ cell board row' col' = "o".

(** The positions of the grid, row by row. *)
Definition positions : list (Z * Z) := list_prod indices indices.

(** The number of pairs of a Musketeer and an enemy on orthogonally adjacent
    cells of the grid. *)
Definition adjacentPairs (board : memory) : Z :=
  Z.of_nat
    (List.length
       (filter
          (fun '((row, col), (row', col')) =>
             Ascii.eqb (cell board row col) "M"
             && Ascii.eqb (cell board row' col') "o"
             && adjacentb row col row' col')
          (list_prod positions positions))).

(** ** Alignment, in the words of the rules *)

(** Every Musketeer of the grid is in one and the same row. *)
Definition shareRow (board : memory) : Prop :=
  exists i, forall row col,
    inGrid row col -> cell board row col = "M" -> row = i.

(** Every Musketeer of the grid is in one and the same column. *)
Definition shareColumn (board : memory) : Prop :=
  exists k, forall row col,
    inGrid row col -> cell board row col = "M" -> col = k.

(** [cornerBoard] with the enemies taken away. *)
Definition cornerBoardBare : memory :=
  boardOf ["M...."; "....."; "....."; "....M"; "..M.."]%string "000".

(** ** Board files *)

(** The three symbols of a cell. *)
Definition isSymbol (c : ascii) : bool :=
  Ascii.eqb c "M" || Ascii.eqb c "o" || Ascii.eqb c ".".

(** Every cell of the grid holds one of the three symbols. *)
Definition validBoard (board : memory) : Prop :=
  forall row col, inGrid row col -> isSymbol (cell board row col) = true.

(** The offset of a position. *)
Definition offset (p : Z * Z) : Z := fst p * N + snd p.

(** A board file with no Musketeer at all. *)
Definition enemiesOnlyFile : list ascii :=
  list_ascii_of_string "ooooo ooooo ..... ..... .....".

(** Memory before [readBoard] fills it: NUL bytes. *)
Definition blank : memory := fun _ => "000".

(** ** Move texts *)

(** The move text [x,9=z], as typed (with the newline [fgets] keeps) and
    bare. *)
Definition scenarioD : list ascii := list_ascii_of_string "x,9=z" ++ ["010"].
Definition scenarioDBare : list ascii := list_ascii_of_string "x,9=z".

(** The capture [a,1=r], and the move [a,1=u] off the top of the board. *)
Definition captureRight : list ascii := list_ascii_of_string "a,1=r" ++ ["010"].
Definition moveUp : list ascii := list_ascii_of_string "a,1=u" ++ ["010"].

(** The text is rejected where it is parsed: neither [sscanf] returns 3, and
    [play] prints "Invalid input format". *)
Definition malformed (playerMove : list ascii) : Prop :=
  scanMove playerMove = None.

(** The prompt of the side to move. *)
Definition prompt (g : game) : event :=
  Say (if musketeersTurn g then MsgPromptMusketeer else MsgPromptEnemy).

(** ** The program *)

(** [main]: the board is read twice from the same file, the first result
    being dropped; when the second read fails, [main] prints
    "Failed to read the board from the file." and returns ([None]);
    otherwise [play] runs, and [play] starts with [musketeersTurn = 1]. *)
Definition main (start : memory) (file : option (list ascii)) (opens : bool)
  (inputs : list (list ascii)) : option (ending * game * list event) :=
  let (_, board1) := readBoard start file in
  let (ok, board2) := readBoard board1 file in
  if ok then Some (play opens inputs (Game board2 true)) else None.

(** ** Notions for the further properties *)

(** The eight direction letters. *)
Definition directionLetters : list ascii :=
  ["L"; "l"; "R"; "r"; "U"; "u"; "D"; "d"].

(** The piece the side to move moves, and what its destination must hold. *)
Definition mover (mTurn : bool) : ascii := if mTurn then "M" else "o".
Definition prey (mTurn : bool) : ascii := if mTurn then "o" else ".".

(** The characters [readBoard] skips. *)
Definition isBlank (c : ascii) : bool := Ascii.eqb c "010" || Ascii.eqb c " ".

(** A text without the characters [readBoard] skips. *)
Definition unblank (chars : list ascii) : list ascii :=
  filter (fun c => negb (isBlank c)) chars.

(** A byte of the board. *)
Definition inBoard (off : Z) : Prop := 0 <= off < N * N.

(** A capture with a blank typed first. *)
Definition blankFirst : list ascii := list_ascii_of_string " a,1=r".

(** A saved game with a tail after the twenty-five cells. *)
Definition fileWithTail : list ascii :=
  boardText cornerBoard ++ list_ascii_of_string "saved at move 3".

(** The saves recorded in a trace. *)
Definition saves (tr : list event) : list event :=
  filter (fun e => match e with Saved _ => true | _ => false end) tr.

(** The row letters and the column digits of the grid. *)
Definition rowLetters : list ascii :=
  ["a"; "b"; "c"; "d"; "e"; "A"; "B"; "C"; "D"; "E"].
Definition colDigits : list ascii := ["1"; "2"; "3"; "4"; "5"].

(** ** A run that ends below the board *)



(** A board file cut after its twenty-fourth cell, and one with a character
    that is no cell symbol in its third row. *)
Definition truncatedFile : list ascii :=
  list_ascii_of_string "ooooo ooooo MMM.. ..... ....".
Definition strayCharFile : list ascii :=
  list_ascii_of_string "ooooo ooooo MMx.. ..... .....".

(* ================================================================= *)
(** * Properties *)

(** ** The subscripts of the loops *)

Lemma indices_eq : indices = [0; 1; 2; 3; 4].
Proof. reflexivity. Qed.

Lemma in_indices (i : Z) : In i indices <-> 0 <= i < N.
Proof.
  rewrite indices_eq. unfold N. simpl. lia.
Qed.

Lemma inGridb_spec (row col : Z) : inGridb row col = true <-> inGrid row col.
Proof.
  unfold inGridb, inGrid. rewrite !andb_true_iff, !Z.leb_le, !Z.ltb_lt. lia.
Qed.

(** ** Results of traced computations *)

Module EffFacts.

Lemma result_ret {A} (a : A) board : Eff.result (Eff.ret a) board = a.
Proof. reflexivity. Qed.

Lemma result_bind {A B} (c : Eff.t A) (k : A -> Eff.t B) board :
  Eff.result (Eff.bind c k) board = Eff.result (k (Eff.result c board)) board.
Proof.
  unfold Eff.result, Eff.bind.
  destruct (c board) as [a tr1]. simpl.
  destruct (k a board) as [b tr2]. reflexivity.
Qed.

Lemma trace_bind {A B} (c : Eff.t A) (k : A -> Eff.t B) board :
  Eff.trace (Eff.bind c k) board
  = Eff.trace c board ++ Eff.trace (k (Eff.result c board)) board.
Proof.
  unfold Eff.trace, Eff.result, Eff.bind.
  destruct (c board) as [a tr1]. simpl.
  destruct (k a board) as [b tr2]. reflexivity.
Qed.

Lemma result_holds row col c board :
  Eff.result (Eff.holds row col c) board = Ascii.eqb (cell board row col) c.
Proof. reflexivity. Qed.

Lemma result_and a b board :
  Eff.result (a &&& b) board = Eff.result a board && Eff.result b board.
Proof.
  unfold Eff.and. rewrite result_bind.
  destruct (Eff.result a board); reflexivity.
Qed.

Lemma result_incrIf cond cnt board :
  Eff.result (Eff.incrIf cond cnt) board
  = if Eff.result cond board then cnt + 1 else cnt.
Proof. unfold Eff.incrIf. rewrite result_bind. reflexivity. Qed.

Lemma result_if {A} (x : bool) (c d : Eff.t A) board :
  Eff.result (if x then c else d) board
  = if x then Eff.result c board else Eff.result d board.
Proof. destruct x; reflexivity. Qed.

End EffFacts.

Create Rewrite HintDb eff.
#[local] Hint Rewrite @EffFacts.result_bind @EffFacts.result_ret
  EffFacts.result_holds EffFacts.result_and EffFacts.result_incrIf
  @EffFacts.result_if : eff.

(** [cnt > 0] after four [if (..) cnt++;] starting from 0. *)
Lemma four_increments (a b c d : bool) :
  ((if d then (if c then (if b then (if a then 0 + 1 else 0) + 1
                          else (if a then 0 + 1 else 0)) + 1
               else (if b then (if a then 0 + 1 else 0) + 1
                     else (if a then 0 + 1 else 0))) + 1
    else (if c then (if b then (if a then 0 + 1 else 0) + 1
                     else (if a then 0 + 1 else 0)) + 1
          else (if b then (if a then 0 + 1 else 0) + 1
                else (if a then 0 + 1 else 0)))) >? 0)
  = a || b || c || d.
Proof. destruct a, b, c, d; reflexivity. Qed.

Lemma isValidMove_result row col direction board :
  Eff.result (isValidMove row col direction) board = validSource row col direction.
Proof.
  unfold isValidMove, validSource, inGridb, isLeft, isRight, isUp, isDown.
  autorewrite with eff.
  replace (row >=? 0) with (0 <=? row) by (rewrite Z.geb_leb; reflexivity).
  replace (col >=? 0) with (0 <=? col) by (rewrite Z.geb_leb; reflexivity).
  destruct ((0 <=? row) && (row <? N) && (0 <=? col) && (col <? N)); simpl;
    [| reflexivity].
  rewrite <- !orb_assoc.
  destruct (_ || _); reflexivity.
Qed.

Lemma isValidMusketeerMove_result row col direction board :
  Eff.result (isValidMusketeerMove row col direction) board
  = musketeerAccepts board row col direction.
Proof.
  unfold isValidMusketeerMove, musketeerAccepts.
  rewrite EffFacts.result_bind, isValidMove_result.
  destruct (validSource row col direction); [| reflexivity].
  autorewrite with eff.
  rewrite four_increments. simpl.
  destruct (_ || _); reflexivity.
Qed.

Lemma isValidEnemyMove_result row col direction board :
  Eff.result (isValidEnemyMove row col direction) board
  = enemyAccepts board row col direction.
Proof.
  unfold isValidEnemyMove, enemyAccepts.
  rewrite EffFacts.result_bind, isValidMove_result.
  destruct (validSource row col direction); [| reflexivity].
  autorewrite with eff.
  rewrite four_increments. simpl.
  destruct (_ || _); reflexivity.
Qed.

(** ** Directions *)

(** The eight letters, by the cell [makeMove] moves to. *)
Lemma target_cases row col direction newRow newCol :
  target row col direction = Some (newRow, newCol) ->
  (isLeft direction = true /\ isRight direction = false /\ isUp direction = false
   /\ isDown direction = false /\ newRow = row /\ newCol = col - 1)
  \/ (isLeft direction = false /\ isRight direction = true /\ isUp direction = false
      /\ isDown direction = false /\ newRow = row /\ newCol = col + 1)
  \/ (isLeft direction = false /\ isRight direction = false /\ isUp direction = true
      /\ isDown direction = false /\ newRow = row - 1 /\ newCol = col)
  \/ (isLeft direction = false /\ isRight direction = false /\ isUp direction = false
      /\ isDown direction = true /\ newRow = row + 1 /\ newCol = col).
Proof.
  unfold target, isLeft, isRight, isUp, isDown.
  destruct (Ascii.eqb_spec direction "l") as [-> | Hl]; simpl.
  { intros [= <- <-]. left. repeat split. }
  destruct (Ascii.eqb_spec direction "L") as [-> | HL]; simpl.
  { intros [= <- <-]. left. repeat split. }
  destruct (Ascii.eqb_spec direction "r") as [-> | Hr]; simpl.
  { intros [= <- <-]. right; left. repeat split. }
  destruct (Ascii.eqb_spec direction "R") as [-> | HR]; simpl.
  { intros [= <- <-]. right; left. repeat split. }
  destruct (Ascii.eqb_spec direction "u") as [-> | Hu]; simpl.
  { intros [= <- <-]. right; right; left. repeat split. }
  destruct (Ascii.eqb_spec direction "U") as [-> | HU]; simpl.
  { intros [= <- <-]. right; right; left. repeat split. }
  destruct (Ascii.eqb_spec direction "d") as [-> | Hd]; simpl.
  { intros [= <- <-]. right; right; right. repeat split. }
  destruct (Ascii.eqb_spec direction "D") as [-> | HD]; simpl.
  { intros [= <- <-]. right; right; right. repeat split. }
  discriminate.
Qed.

Lemma eqb_true_iff (a b : ascii) : Ascii.eqb a b = true <-> a = b.
Proof. apply Ascii.eqb_eq. Qed.

(** Decides the bounds tests left in a goal. *)
Ltac bounds :=
  repeat match goal with
    | |- context [?a >? ?b] =>
        let H := fresh in destruct (Z.gtb_spec a b) as [H | H]; try lia
    | |- context [?a <? ?b] =>
        let H := fresh in destruct (Z.ltb_spec a b) as [H | H]; try lia
    | |- context [?a <=? ?b] =>
        let H := fresh in destruct (Z.leb_spec a b) as [H | H]; try lia
    end.

(** The closed forms, for a destination on the grid. *)
Lemma accepts_on_grid
  (board : memory) (row col : Z) (direction : ascii) (newRow newCol : Z) :
  inGrid row col ->
  target row col direction = Some (newRow, newCol) ->
  inGrid newRow newCol ->
  (musketeerAccepts board row col direction = true
   <-> cell board row col = "M" /\ cell board newRow newCol = "o")
  /\ (enemyAccepts board row col direction = true
      <-> cell board row col = "o" /\ cell board newRow newCol = ".").
Proof.
  intros Hsrc Htarget Hdst.
  unfold musketeerAccepts, enemyAccepts, validSource.
  apply (proj2 (inGridb_spec row col)) in Hsrc as Hsrcb. rewrite Hsrcb.
  unfold inGrid, N in *.
  destruct (target_cases _ _ _ _ _ Htarget)
    as [(-> & -> & -> & -> & -> & ->) | [(-> & -> & -> & -> & -> & ->)
       | [(-> & -> & -> & -> & -> & ->) | (-> & -> & -> & -> & -> & ->)]]];
    simpl; rewrite ?andb_false_r, ?orb_false_r; simpl;
    bounds; rewrite ?andb_true_r, ?andb_true_iff, !eqb_true_iff; tauto.
Qed.

(** C1.  On every board, for every source position on the grid and every
    direction letter whose one-step destination is on the grid too, the
    Musketeer validator accepts the move exactly when the source cell holds
    ['M'] and the destination cell holds ['o'], and the enemy validator
    accepts it exactly when the source cell holds ['o'] and the destination
    cell holds ['.']. *)
Theorem validators_accept_iff_occupancy
  (board : memory) (row col : Z) (direction : ascii) (newRow newCol : Z) :
  inGrid row col ->
  target row col direction = Some (newRow, newCol) ->
  inGrid newRow newCol ->
  (Eff.result (isValidMusketeerMove row col direction) board = true
   <-> cell board row col = "M" /\ cell board newRow newCol = "o")
  /\ (Eff.result (isValidEnemyMove row col direction) board = true
      <-> cell board row col = "o" /\ cell board newRow newCol = ".").
Proof.
  intros Hsrc Htarget Hdst.
  rewrite isValidMusketeerMove_result, isValidEnemyMove_result.
  apply accepts_on_grid; assumption.
Qed.

Lemma validators_accept_iff_occupancy_witness :
  inGrid 0 0 /\ target 0 0 "r" = Some (0, 1) /\ inGrid 0 1
  /\ (Eff.result (isValidMusketeerMove 0 0 "r") cornerBoard = true
      <-> cell cornerBoard 0 0 = "M" /\ cell cornerBoard 0 1 = "o")
  /\ (Eff.result (isValidEnemyMove 0 0 "r") cornerBoard = true
      <-> cell cornerBoard 0 0 = "o" /\ cell cornerBoard 0 1 = ".").
Proof.
  assert (Hsrc : inGrid 0 0) by (unfold inGrid, N; lia).
  assert (Hdst : inGrid 0 1) by (unfold inGrid, N; lia).
  assert (Htarget : target 0 0 "r" = Some (0, 1)) by reflexivity.
  split; [exact Hsrc | split; [exact Htarget | split; [exact Hdst |]]].
  apply (validators_accept_iff_occupancy cornerBoard 0 0 "r" 0 1 Hsrc Htarget Hdst).
Defined.

(** ** Destinations off the grid *)

(** The Musketeer validator rejects every move whose destination is off the
    grid: each of its four tests ends with the bound on the destination. *)
Lemma isValidMusketeerMove_rejects_off_grid
  (board : memory) (row col : Z) (direction : ascii) (newRow newCol : Z) :
  inGrid row col ->
  target row col direction = Some (newRow, newCol) ->
  ~ inGrid newRow newCol ->
  Eff.result (isValidMusketeerMove row col direction) board = false.
Proof.
  intros Hsrc Htarget Hdst.
  rewrite isValidMusketeerMove_result.
  unfold musketeerAccepts. unfold inGrid, N in *.
  destruct (target_cases _ _ _ _ _ Htarget)
    as [(-> & -> & -> & -> & -> & ->) | [(-> & -> & -> & -> & -> & ->)
       | [(-> & -> & -> & -> & -> & ->) | (-> & -> & -> & -> & -> & ->)]]];
    simpl; rewrite ?andb_false_r, ?orb_false_r; simpl;
    bounds; rewrite ?andb_false_r; reflexivity.
Qed.

(** C2, at two moves on [cornerBoard] whose destination is off the grid.
    The enemy at B1 moving left: the destination subscripts are [(1, -1)];
    the enemy validator tests no bound, reads [board[1][-1]], which is the
    byte of A5, finds ['.'] and accepts.  The Musketeer at A1 moving up: the
    Musketeer validator rejects, but it reads [board[-1][0]] before it
    tests [row > 0]. *)
Theorem validators_read_off_grid_destination :
  (target 1 0 "l" = Some (1, -1) /\ inGridb 1 (-1) = false
   /\ Eff.result (isValidEnemyMove 1 0 "l") cornerBoard = true
   /\ existsb (fun e => negb (fetchInGrid e))
        (Eff.trace (isValidEnemyMove 1 0 "l") cornerBoard) = true)
  /\ (target 0 0 "u" = Some (-1, 0) /\ inGridb (-1) 0 = false
      /\ Eff.result (isValidMusketeerMove 0 0 "u") cornerBoard = false
      /\ Eff.trace (isValidMusketeerMove 0 0 "u") cornerBoard
         = [Fetch 0 0; Fetch (-1) 0; Fetch 0 0; Fetch 1 0; Fetch 0 0;
            Fetch 0 (-1); Fetch 0 0; Fetch 0 1; Say MsgNoMusketeers]).
Proof. repeat split. Qed.

(** ** Sums and counting loops *)

Lemma zsum_nonneg (l : list Z) : (forall x, In x l -> 0 <= x) -> 0 <= zsum l.
Proof.
  induction l as [| a l IH]; simpl; intros H; [lia |].
  assert (0 <= a) by (apply H; now left).
  assert (0 <= zsum l) by (apply IH; intros; apply H; now right).
  lia.
Qed.

Lemma zsum_zero_iff (l : list Z) :
  (forall x, In x l -> 0 <= x) ->
  zsum l = 0 <-> (forall x, In x l -> x = 0).
Proof.
  induction l as [| a l IH]; simpl; intros Hpos.
  - split; [intros _ x [] | reflexivity].
  - assert (Ha : 0 <= a) by (apply Hpos; now left).
    assert (Hl : forall x, In x l -> 0 <= x) by (intros; apply Hpos; now right).
    pose proof (zsum_nonneg l Hl) as Hs.
    specialize (IH Hl). split.
    + intros Hsum x [<- | Hin]; [lia |].
      apply IH; [lia | exact Hin].
    + intros Hall.
      assert (a = 0) by (apply Hall; now left).
      assert (zsum l = 0) by (apply IH; intros; apply Hall; now right).
      lia.
Qed.

Lemma zsum_member_le (l : list Z) (x : Z) :
  (forall y, In y l -> 0 <= y) -> In x l -> x <= zsum l.
Proof.
  induction l as [| a l IH]; simpl; intros Hpos Hin; [contradiction |].
  assert (Ha : 0 <= a) by (apply Hpos; now left).
  assert (Hl : forall y, In y l -> 0 <= y) by (intros; apply Hpos; now right).
  pose proof (zsum_nonneg l Hl).
  destruct Hin as [<- | Hin]; [lia |].
  specialize (IH Hl Hin). lia.
Qed.

(** A loop that adds to a counter is a sum. *)
Lemma fold_left_add {A} (f : A -> Z -> Z) (l : list A) (a : Z) :
  (forall x n, f x n = n + f x 0) ->
  fold_left (fun n x => f x n) l a = a + zsum (map (fun x => f x 0) l).
Proof.
  intros Hf. revert a.
  induction l as [| x l IH]; simpl; intros a; [lia |].
  rewrite IH, (Hf x a). lia.
Qed.

(** A loop of [if (test) n++;] counts the elements that pass the test. *)
Lemma fold_left_count {A} (test : A -> bool) (l : list A) (a : Z) :
  fold_left (fun n x => if test x then n + 1 else n) l a
  = a + zsum (map (fun x => ind (test x)) l).
Proof.
  apply (fold_left_add (fun x n => if test x then n + 1 else n)).
  intros x n. destruct (test x); simpl; lia.
Qed.

Lemma ind_nonneg (x : bool) : 0 <= ind x.
Proof. destruct x; simpl; lia. Qed.

Lemma zsum_ind_nonneg {A} (test : A -> bool) (l : list A) :
  0 <= zsum (map (fun x => ind (test x)) l).
Proof.
  apply zsum_nonneg. intros x Hin.
  apply in_map_iff in Hin as (y & <- & _). apply ind_nonneg.
Qed.

(** ** [winMusketeers] *)

Lemma countAdjacent_add board i k cnt :
  countAdjacent board i k cnt = cnt + countAdjacent board i k 0.
Proof.
  unfold countAdjacent.
  destruct (Ascii.eqb (cell board i k) "M"); [| lia].
  destruct (_ && _), (_ && _), (_ && _), (_ && _); lia.
Qed.

Lemma countAdjacent_nonneg board i k : 0 <= countAdjacent board i k 0.
Proof.
  unfold countAdjacent.
  destruct (Ascii.eqb (cell board i k) "M"); [| lia].
  destruct (_ && _), (_ && _), (_ && _), (_ && _); lia.
Qed.

Lemma adjacencies_sum board :
  adjacencies board
  = zsum (map (fun i => zsum (map (fun k => countAdjacent board i k 0) indices))
            indices).
Proof.
  unfold adjacencies.
  rewrite (fold_left_add
             (fun i cnt =>
                fold_left (fun cnt k => countAdjacent board i k cnt) indices cnt)).
  - rewrite Z.add_0_l. apply f_equal, map_ext. intros i.
    rewrite (fold_left_add (fun k cnt => countAdjacent board i k cnt));
      [reflexivity | intros; apply countAdjacent_add].
  - intros i n.
    rewrite !(fold_left_add (fun k cnt => countAdjacent board i k cnt))
      by (intros; apply countAdjacent_add).
    lia.
Qed.

Lemma adjacencies_nonneg board : 0 <= adjacencies board.
Proof.
  rewrite adjacencies_sum. apply zsum_nonneg. intros x Hin.
  apply in_map_iff in Hin as (i & <- & _).
  apply zsum_nonneg. intros y Hin.
  apply in_map_iff in Hin as (k & <- & _). apply countAdjacent_nonneg.
Qed.

Lemma adjacencies_zero_iff board :
  adjacencies board = 0
  <-> (forall i k, inGrid i k -> countAdjacent board i k 0 = 0).
Proof.
  rewrite adjacencies_sum, zsum_zero_iff.
  - split.
    + intros H i k [Hi Hk].
      apply in_indices in Hi, Hk.
      assert (Hrow : zsum (map (fun k => countAdjacent board i k 0) indices) = 0).
      { apply H, in_map_iff. exists i. split; [reflexivity | exact Hi]. }
      assert (Hpos : forall y,
                 In y (map (fun k => countAdjacent board i k 0) indices) -> 0 <= y).
      { intros y Hin. apply in_map_iff in Hin as (k' & <- & _).
        apply countAdjacent_nonneg. }
      apply (proj1 (zsum_zero_iff _ Hpos) Hrow), in_map_iff.
      exists k. split; [reflexivity | exact Hk].
    + intros H x Hin. apply in_map_iff in Hin as (i & <- & Hi).
      apply zsum_zero_iff.
      * intros y Hin. apply in_map_iff in Hin as (k & <- & _).
        apply countAdjacent_nonneg.
      * intros y Hin. apply in_map_iff in Hin as (k & <- & Hk).
        apply H. split; apply in_indices; assumption.
  - intros x Hin. apply in_map_iff in Hin as (i & <- & _).
    apply zsum_nonneg. intros y Hin.
    apply in_map_iff in Hin as (k & <- & _). apply countAdjacent_nonneg.
Qed.

Lemma winMusketeers_true_iff board :
  winMusketeers board = true <-> adjacencies board = 0.
Proof.
  unfold winMusketeers. pose proof (adjacencies_nonneg board).
  destruct (Z.gtb_spec (adjacencies board) 0); split; (discriminate || lia || reflexivity).
Qed.

Lemma ind_sum4_zero (a b c d : bool) :
  ind a + ind b + ind c + ind d = 0 ->
  a = false /\ b = false /\ c = false /\ d = false.
Proof. destruct a, b, c, d; simpl; intros H; try discriminate H; auto. Qed.

(** The four tests of [countAdjacent] at a Musketeer, as a sum. *)
Lemma countAdjacent_musketeer board i k :
  cell board i k = "M" ->
  countAdjacent board i k 0
  = ind ((k - 1 >=? 0) && Ascii.eqb (cell board i (k - 1)) "o")
    + ind ((k + 1 <? N) && Ascii.eqb (cell board i (k + 1)) "o")
    + ind ((i - 1 >=? 0) && Ascii.eqb (cell board (i - 1) k) "o")
    + ind ((i + 1 <? N) && Ascii.eqb (cell board (i + 1) k) "o").
Proof.
  intros HM. unfold countAdjacent. rewrite HM. simpl.
  destruct (_ && _), (_ && _), (_ && _), (_ && _); reflexivity.
Qed.

Lemma countAdjacent_other board i k :
  cell board i k <> "M" -> countAdjacent board i k 0 = 0.
Proof.
  intros HM. unfold countAdjacent.
  destruct (Ascii.eqb_spec (cell board i k) "M"); [contradiction | reflexivity].
Qed.

Lemma countAdjacent_zero_iff board i k :
  inGrid i k ->
  countAdjacent board i k 0 = 0
  <-> (cell board i k = "M" -> ~ threatened board i k).
Proof.
  intros [Hi Hk]. unfold N in *.
  destruct (Ascii.eqb_spec (cell board i k) "M") as [HM | HM].
  2: { rewrite countAdjacent_other by exact HM. tauto. }
  rewrite countAdjacent_musketeer by exact HM. unfold N.
  split.
  - intros Hcnt _ (row' & col' & [Hr' Hc'] & Hadj & Ho). unfold N in *.
    apply ind_sum4_zero in Hcnt as (Hleft & Hright & Hup & Hdown).
    apply eqb_true_iff in Ho.
    destruct Hadj as [[-> [-> | ->]] | [-> [-> | ->]]].
    + rewrite Ho, andb_true_r in Hleft.
      assert ((k - 1 >=? 0) = true) by (apply Z.geb_le; lia). congruence.
    + rewrite Ho, andb_true_r in Hright.
      assert ((k + 1 <? 5) = true) by (apply Z.ltb_lt; lia). congruence.
    + rewrite Ho, andb_true_r in Hup.
      assert ((i - 1 >=? 0) = true) by (apply Z.geb_le; lia). congruence.
    + rewrite Ho, andb_true_r in Hdown.
      assert ((i + 1 <? 5) = true) by (apply Z.ltb_lt; lia). congruence.
  - intros H. specialize (H HM).
    assert (Hleft : (k - 1 >=? 0) && Ascii.eqb (cell board i (k - 1)) "o" = false).
    { apply not_true_is_false. intros E. apply H.
      apply andb_true_iff in E as [Hb Ho].
      apply Z.geb_le in Hb. apply eqb_true_iff in Ho.
      exists i, (k - 1). unfold inGrid, adjacent, N. repeat split; auto; lia. }
    assert (Hright : (k + 1 <? 5) && Ascii.eqb (cell board i (k + 1)) "o" = false).
    { apply not_true_is_false. intros E. apply H.
      apply andb_true_iff in E as [Hb Ho].
      apply Z.ltb_lt in Hb. apply eqb_true_iff in Ho.
      exists i, (k + 1). unfold inGrid, adjacent, N. repeat split; auto; lia. }
    assert (Hup : (i - 1 >=? 0) && Ascii.eqb (cell board (i - 1) k) "o" = false).
    { apply not_true_is_false. intros E. apply H.
      apply andb_true_iff in E as [Hb Ho].
      apply Z.geb_le in Hb. apply eqb_true_iff in Ho.
      exists (i - 1), k. unfold inGrid, adjacent, N. repeat split; auto; lia. }
    assert (Hdown : (i + 1 <? 5) && Ascii.eqb (cell board (i + 1) k) "o" = false).
    { apply not_true_is_false. intros E. apply H.
      apply andb_true_iff in E as [Hb Ho].
      apply Z.ltb_lt in Hb. apply eqb_true_iff in Ho.
      exists (i + 1), k. unfold inGrid, adjacent, N. repeat split; auto; lia. }
    rewrite Hleft, Hright, Hup, Hdown. reflexivity.
Qed.

Lemma in_positions (row col : Z) : In (row, col) positions <-> inGrid row col.
Proof.
  unfold positions, inGrid. rewrite in_prod_iff, !in_indices. reflexivity.
Qed.

Lemma adjacentb_spec (row col row' col' : Z) :
  adjacentb row col row' col' = true <-> adjacent row col row' col'.
Proof.
  unfold adjacentb, adjacent.
  rewrite orb_true_iff, !andb_true_iff, !orb_true_iff, !Z.eqb_eq. reflexivity.
Qed.

Lemma filter_empty_iff {A} (f : A -> bool) (l : list A) :
  filter f l = [] <-> (forall x, In x l -> f x = false).
Proof.
  induction l as [| a l IH]; simpl.
  - split; [intros _ x [] | reflexivity].
  - destruct (f a) eqn:E; split.
    + discriminate.
    + intros H. specialize (H a (or_introl eq_refl)). congruence.
    + intros H x [<- | Hin]; [exact E | apply IH; assumption].
    + intros H. apply IH. intros x Hin. apply H. now right.
Qed.

Lemma adjacentPairs_zero_iff board :
  adjacentPairs board = 0
  <-> (forall row col,
         inGrid row col -> cell board row col = "M" -> ~ threatened board row col).
Proof.
  unfold adjacentPairs.
  rewrite <- Nat2Z.inj_0, Nat2Z.inj_iff, length_zero_iff_nil, filter_empty_iff.
  split.
  - intros H row col Hsrc HM (row' & col' & Hdst & Hadj & Ho).
    assert (Hin : In ((row, col), (row', col')) (list_prod positions positions))
      by (apply in_prod_iff; split; apply in_positions; assumption).
    apply H in Hin. cbv beta iota in Hin.
    rewrite (proj2 (eqb_true_iff _ _) HM), (proj2 (eqb_true_iff _ _) Ho),
      (proj2 (adjacentb_spec _ _ _ _) Hadj) in Hin.
    discriminate.
  - intros H [[row col] [row' col']] Hin.
    apply in_prod_iff in Hin as [Hsrc Hdst].
    apply in_positions in Hsrc, Hdst.
    apply not_true_is_false. intros E.
    apply andb_true_iff in E as [E Hadj]. apply andb_true_iff in E as [HM Ho].
    apply eqb_true_iff in HM, Ho. apply adjacentb_spec in Hadj.
    apply (H row col Hsrc HM). exists row', col'. auto.
Qed.

(** C3.  On every board, [winMusketeers] returns true exactly when no cell of
    the grid holding a Musketeer has an orthogonally adjacent cell of the
    grid holding an enemy, that is, when the number of orthogonally adjacent
    Musketeer-enemy pairs on the board is zero. *)
Theorem winMusketeers_iff_no_adjacent_enemy (board : memory) :
  (winMusketeers board = true
   <-> (forall row col,
          inGrid row col -> cell board row col = "M" -> ~ threatened board row col))
  /\ (winMusketeers board = true <-> adjacentPairs board = 0).
Proof.
  assert (Hmain : winMusketeers board = true
                  <-> (forall row col, inGrid row col ->
                         cell board row col = "M" -> ~ threatened board row col)).
  { rewrite winMusketeers_true_iff, adjacencies_zero_iff. split.
    - intros H row col Hin. apply countAdjacent_zero_iff; auto.
    - intros H row col Hin. apply countAdjacent_zero_iff; auto. }
  split; [exact Hmain |].
  rewrite adjacentPairs_zero_iff. exact Hmain.
Qed.

(** ** [winEnemies] *)

Lemma positions_eq :
  positions
  = [(0, 0); (0, 1); (0, 2); (0, 3); (0, 4);
     (1, 0); (1, 1); (1, 2); (1, 3); (1, 4);
     (2, 0); (2, 1); (2, 2); (2, 3); (2, 4);
     (3, 0); (3, 1); (3, 2); (3, 3); (3, 4);
     (4, 0); (4, 1); (4, 2); (4, 3); (4, 4)].
Proof. reflexivity. Qed.

Lemma rowCount_sum board i :
  rowCount board i
  = zsum (map (fun k => ind (Ascii.eqb (cell board i k) "M")) indices).
Proof. unfold rowCount. rewrite fold_left_count. lia. Qed.

Lemma colCount_sum board k :
  colCount board k
  = zsum (map (fun i => ind (Ascii.eqb (cell board i k) "M")) indices).
Proof. unfold colCount. rewrite fold_left_count. lia. Qed.

Lemma countPiece_sum piece board :
  countPiece piece board
  = zsum (map (fun '(i, k) => ind (Ascii.eqb (cell board i k) piece)) positions).
Proof.
  unfold countPiece. fold positions.
  pose (f := fun (x : Z * Z) (n : Z) =>
               let '(i, k) := x in
               if Ascii.eqb (cell board i k) piece then n + 1 else n).
  change (fold_left (fun n x => f x n) positions 0
          = zsum (map (fun '(i, k) => ind (Ascii.eqb (cell board i k) piece))
                    positions)).
  rewrite fold_left_add.
  - rewrite Z.add_0_l. apply f_equal, map_ext.
    intros [i k]. unfold f. destruct (Ascii.eqb (cell board i k) piece); reflexivity.
  - intros [i k] n. unfold f. destruct (Ascii.eqb (cell board i k) piece); lia.
Qed.

Lemma countMusketeers_rows board :
  countMusketeers board
  = rowCount board 0 + rowCount board 1 + rowCount board 2
    + rowCount board 3 + rowCount board 4.
Proof.
  unfold countMusketeers. rewrite countPiece_sum, !rowCount_sum.
  rewrite positions_eq, indices_eq. cbn [map zsum fold_right]. lia.
Qed.

Lemma countMusketeers_columns board :
  countMusketeers board
  = colCount board 0 + colCount board 1 + colCount board 2
    + colCount board 3 + colCount board 4.
Proof.
  unfold countMusketeers. rewrite countPiece_sum, !colCount_sum.
  rewrite positions_eq, indices_eq. cbn [map zsum fold_right]. lia.
Qed.

Lemma rowCount_nonneg board i : 0 <= rowCount board i.
Proof. rewrite rowCount_sum. apply zsum_ind_nonneg. Qed.

Lemma colCount_nonneg board k : 0 <= colCount board k.
Proof. rewrite colCount_sum. apply zsum_ind_nonneg. Qed.

(** A row that holds a Musketeer counts at least one. *)
Lemma rowCount_musketeer board row col :
  inGrid row col -> cell board row col = "M" -> 1 <= rowCount board row.
Proof.
  intros [_ Hc] HM. rewrite rowCount_sum.
  apply (zsum_member_le _ 1).
  - intros y Hin. apply in_map_iff in Hin as (k & <- & _). apply ind_nonneg.
  - apply in_map_iff. exists col. rewrite HM. split; [reflexivity |].
    apply in_indices. exact Hc.
Qed.

Lemma colCount_musketeer board row col :
  inGrid row col -> cell board row col = "M" -> 1 <= colCount board col.
Proof.
  intros [Hr _] HM. rewrite colCount_sum.
  apply (zsum_member_le _ 1).
  - intros y Hin. apply in_map_iff in Hin as (i & <- & _). apply ind_nonneg.
  - apply in_map_iff. exists row. rewrite HM. split; [reflexivity |].
    apply in_indices. exact Hr.
Qed.

(** A row without a Musketeer counts zero. *)
Lemma rowCount_empty board row :
  (forall col, 0 <= col < N -> cell board row col <> "M") -> rowCount board row = 0.
Proof.
  intros H. rewrite rowCount_sum. apply zsum_zero_iff.
  - intros y Hin. apply in_map_iff in Hin as (k & <- & _). apply ind_nonneg.
  - intros y Hin. apply in_map_iff in Hin as (k & <- & Hk).
    apply in_indices in Hk.
    destruct (Ascii.eqb_spec (cell board row k) "M") as [HM | _]; [| reflexivity].
    exfalso. exact (H k Hk HM).
Qed.

Lemma colCount_empty board col :
  (forall row, 0 <= row < N -> cell board row col <> "M") -> colCount board col = 0.
Proof.
  intros H. rewrite colCount_sum. apply zsum_zero_iff.
  - intros y Hin. apply in_map_iff in Hin as (i & <- & _). apply ind_nonneg.
  - intros y Hin. apply in_map_iff in Hin as (i & <- & Hi).
    apply in_indices in Hi.
    destruct (Ascii.eqb_spec (cell board i col) "M") as [HM | _]; [| reflexivity].
    exfalso. exact (H i Hi HM).
Qed.

Lemma winEnemies_true_iff board :
  winEnemies board = true
  <-> (exists i, 0 <= i < N /\ rowCount board i = 3)
      \/ (exists k, 0 <= k < N /\ colCount board k = 3).
Proof.
  unfold winEnemies.
  destruct (existsb (fun i => rowCount board i =? 3) indices) eqn:Erow.
  - split; [intros _ | reflexivity]. left.
    apply existsb_exists in Erow as (i & Hi & E).
    exists i. split; [apply in_indices, Hi | apply Z.eqb_eq, E].
  - destruct (existsb (fun k => colCount board k =? 3) indices) eqn:Ecol.
    + split; [intros _ | reflexivity]. right.
      apply existsb_exists in Ecol as (k & Hk & E).
      exists k. split; [apply in_indices, Hk | apply Z.eqb_eq, E].
    + split; [discriminate |].
      intros [(i & Hi & E) | (k & Hk & E)].
      * assert (existsb (fun i => rowCount board i =? 3) indices = true);
          [| congruence].
        apply existsb_exists. exists i.
        split; [apply in_indices, Hi | apply Z.eqb_eq, E].
      * assert (existsb (fun k => colCount board k =? 3) indices = true);
          [| congruence].
        apply existsb_exists. exists k.
        split; [apply in_indices, Hk | apply Z.eqb_eq, E].
Qed.

(** Splits a subscript of the grid into its five values. *)
Ltac five i H :=
  let Hi := fresh in
  assert (Hi : i = 0 \/ i = 1 \/ i = 2 \/ i = 3 \/ i = 4) by (unfold N in H; lia);
  destruct Hi as [-> | [-> | [-> | [-> | ->]]]].

(** With three Musketeers on the grid, a row that counts three holds them
    all. *)
Lemma rowCount_three_all board i :
  countMusketeers board = 3 -> 0 <= i < N -> rowCount board i = 3 ->
  forall row col, inGrid row col -> cell board row col = "M" -> row = i.
Proof.
  intros Hthree Hi Hcount row col Hin HM.
  pose proof (rowCount_musketeer board row col Hin HM) as Hrow.
  destruct Hin as [Hr _].
  rewrite countMusketeers_rows in Hthree.
  pose proof (rowCount_nonneg board 0). pose proof (rowCount_nonneg board 1).
  pose proof (rowCount_nonneg board 2). pose proof (rowCount_nonneg board 3).
  pose proof (rowCount_nonneg board 4).
  five i Hi; five row Hr; lia.
Qed.

Lemma colCount_three_all board k :
  countMusketeers board = 3 -> 0 <= k < N -> colCount board k = 3 ->
  forall row col, inGrid row col -> cell board row col = "M" -> col = k.
Proof.
  intros Hthree Hk Hcount row col Hin HM.
  pose proof (colCount_musketeer board row col Hin HM) as Hcol.
  destruct Hin as [_ Hc].
  rewrite countMusketeers_columns in Hthree.
  pose proof (colCount_nonneg board 0). pose proof (colCount_nonneg board 1).
  pose proof (colCount_nonneg board 2). pose proof (colCount_nonneg board 3).
  pose proof (colCount_nonneg board 4).
  five k Hk; five col Hc; lia.
Qed.

(** With three Musketeers on the grid, all in row [i], that row counts
    three. *)
Lemma shareRow_rowCount board i :
  countMusketeers board = 3 ->
  (forall row col, inGrid row col -> cell board row col = "M" -> row = i) ->
  0 <= i < N /\ rowCount board i = 3.
Proof.
  intros Hthree Hall.
  assert (Hempty : forall row, 0 <= row < N -> row <> i -> rowCount board row = 0).
  { intros row Hr Hne. apply rowCount_empty. intros col Hc HM.
    apply Hne, (Hall row col); [split; assumption | exact HM]. }
  rewrite countMusketeers_rows in Hthree.
  pose proof (Hempty 0) as H0. pose proof (Hempty 1) as H1.
  pose proof (Hempty 2) as H2. pose proof (Hempty 3) as H3.
  pose proof (Hempty 4) as H4. unfold N in *.
  destruct (Z.eq_dec i 0) as [-> | N0]; [split; lia |].
  destruct (Z.eq_dec i 1) as [-> | N1]; [split; lia |].
  destruct (Z.eq_dec i 2) as [-> | N2]; [split; lia |].
  destruct (Z.eq_dec i 3) as [-> | N3]; [split; lia |].
  destruct (Z.eq_dec i 4) as [-> | N4]; [split; lia |].
  lia.
Qed.

Lemma shareColumn_colCount board k :
  countMusketeers board = 3 ->
  (forall row col, inGrid row col -> cell board row col = "M" -> col = k) ->
  0 <= k < N /\ colCount board k = 3.
Proof.
  intros Hthree Hall.
  assert (Hempty : forall col, 0 <= col < N -> col <> k -> colCount board col = 0).
  { intros col Hc Hne. apply colCount_empty. intros row Hr HM.
    apply Hne, (Hall row col); [split; assumption | exact HM]. }
  rewrite countMusketeers_columns in Hthree.
  pose proof (Hempty 0) as H0. pose proof (Hempty 1) as H1.
  pose proof (Hempty 2) as H2. pose proof (Hempty 3) as H3.
  pose proof (Hempty 4) as H4. unfold N in *.
  destruct (Z.eq_dec k 0) as [-> | N0]; [split; lia |].
  destruct (Z.eq_dec k 1) as [-> | N1]; [split; lia |].
  destruct (Z.eq_dec k 2) as [-> | N2]; [split; lia |].
  destruct (Z.eq_dec k 3) as [-> | N3]; [split; lia |].
  destruct (Z.eq_dec k 4) as [-> | N4]; [split; lia |].
  lia.
Qed.

(** C4.  On every board with exactly three Musketeers on the grid,
    [winEnemies] returns true exactly when the three are all in one row or
    all in one column; for every other configuration it returns false. *)
Theorem winEnemies_iff_aligned (board : memory) :
  countMusketeers board = 3 ->
  (winEnemies board = true <-> shareRow board \/ shareColumn board)
  /\ (~ (shareRow board \/ shareColumn board) -> winEnemies board = false).
Proof.
  intros Hthree.
  assert (Hiff : winEnemies board = true <-> shareRow board \/ shareColumn board).
  { rewrite winEnemies_true_iff. split.
    - intros [(i & Hi & Hcount) | (k & Hk & Hcount)].
      + left. exists i. apply rowCount_three_all; assumption.
      + right. exists k. apply colCount_three_all; assumption.
    - intros [(i & Hall) | (k & Hall)].
      + left. exists i. apply shareRow_rowCount; assumption.
      + right. exists k. apply shareColumn_colCount; assumption. }
  split; [exact Hiff |].
  intros Hnot. apply not_true_is_false. intros Hwin. apply Hnot, Hiff, Hwin.
Qed.

Lemma winEnemies_iff_aligned_witness :
  countMusketeers cornerBoard = 3
  /\ (winEnemies cornerBoard = true <-> shareRow cornerBoard \/ shareColumn cornerBoard)
  /\ (~ (shareRow cornerBoard \/ shareColumn cornerBoard)
      -> winEnemies cornerBoard = false).
Proof.
  split; [reflexivity |].
  apply (winEnemies_iff_aligned cornerBoard). reflexivity.
Defined.

(** ** [winEnemies] looks at the Musketeers only *)

Lemma existsb_ext_in {A} (f g : A -> bool) (l : list A) :
  (forall x, In x l -> f x = g x) -> existsb f l = existsb g l.
Proof.
  induction l as [| a l IH]; simpl; intros H; [reflexivity |].
  rewrite (H a (or_introl eq_refl)), IH; [reflexivity |].
  intros x Hin. apply H. now right.
Qed.

Lemma eqb_musketeer_agree (x y : ascii) :
  (x = "M" <-> y = "M") -> Ascii.eqb x "M" = Ascii.eqb y "M".
Proof.
  intros H.
  destruct (Ascii.eqb_spec x "M") as [Hx | Hx], (Ascii.eqb_spec y "M") as [Hy | Hy];
    tauto.
Qed.

(** C10.  Two boards that have their Musketeers on the same cells of the
    grid, however they differ elsewhere, get the same answer from
    [winEnemies]. *)
Theorem winEnemies_depends_on_musketeers_only (board1 board2 : memory) :
  (forall row col,
     inGrid row col -> (cell board1 row col = "M" <-> cell board2 row col = "M")) ->
  winEnemies board1 = winEnemies board2.
Proof.
  intros Hagree.
  assert (Hrow : forall i, In i indices -> rowCount board1 i = rowCount board2 i).
  { intros i Hi. rewrite !rowCount_sum. apply f_equal, map_ext_in.
    intros k Hk. apply f_equal, eqb_musketeer_agree, Hagree.
    split; apply in_indices; assumption. }
  assert (Hcol : forall k, In k indices -> colCount board1 k = colCount board2 k).
  { intros k Hk. rewrite !colCount_sum. apply f_equal, map_ext_in.
    intros i Hi. apply f_equal, eqb_musketeer_agree, Hagree.
    split; apply in_indices; assumption. }
  unfold winEnemies.
  rewrite (existsb_ext_in (fun i => rowCount board1 i =? 3)
             (fun i => rowCount board2 i =? 3))
    by (intros i Hi; rewrite (Hrow i Hi); reflexivity).
  rewrite (existsb_ext_in (fun k => colCount board1 k =? 3)
             (fun k => colCount board2 k =? 3))
    by (intros k Hk; rewrite (Hcol k Hk); reflexivity).
  reflexivity.
Qed.

Lemma winEnemies_depends_on_musketeers_only_witness :
  (forall row col,
     inGrid row col
     -> (cell cornerBoard row col = "M" <-> cell cornerBoardBare row col = "M"))
  /\ winEnemies cornerBoard = winEnemies cornerBoardBare.
Proof.
  assert (Hagree : forall row col,
             inGrid row col
             -> (cell cornerBoard row col = "M" <-> cell cornerBoardBare row col = "M")).
  { intros row col [Hr Hc].
    five row Hr; five col Hc; vm_compute; split; intros H;
      first [reflexivity | discriminate H]. }
  split; [exact Hagree |].
  apply (winEnemies_depends_on_musketeers_only cornerBoard cornerBoardBare Hagree).
Defined.

(** ** Piece counts under [makeMove] *)

(** Writing one byte of the board changes the count of a piece by what the
    byte held and what it holds now. *)
Lemma countPiece_store piece board row col v :
  0 <= row * N + col < N * N ->
  countPiece piece (store board row col v)
  = countPiece piece board
    - ind (Ascii.eqb (cell board row col) piece) + ind (Ascii.eqb v piece).
Proof.
  intros Hoff. rewrite !countPiece_sum, positions_eq.
  cbn [map zsum fold_right]. unfold cell, store.
  remember (row * N + col) as off eqn:Eoff. clear Eoff. unfold N in *.
  assert (Hcases : off = 0 \/ off = 1 \/ off = 2 \/ off = 3 \/ off = 4
                   \/ off = 5 \/ off = 6 \/ off = 7 \/ off = 8 \/ off = 9
                   \/ off = 10 \/ off = 11 \/ off = 12 \/ off = 13 \/ off = 14
                   \/ off = 15 \/ off = 16 \/ off = 17 \/ off = 18 \/ off = 19
                   \/ off = 20 \/ off = 21 \/ off = 22 \/ off = 23 \/ off = 24)
    by lia.
  repeat (destruct Hcases as [-> | Hcases]; [simpl; lia |]).
  subst off. simpl. lia.
Qed.

(** Writing a byte outside the board leaves the counts alone. *)
Lemma countPiece_store_outside piece board row col v :
  ~ (0 <= row * N + col < N * N) ->
  countPiece piece (store board row col v) = countPiece piece board.
Proof.
  intros Hoff. rewrite !countPiece_sum. apply f_equal, map_ext_in.
  intros [i k] Hin. apply in_positions in Hin as [Hi Hk].
  unfold cell, store, N in *.
  destruct (Z.eqb_spec (i * 5 + k) (row * 5 + col)) as [E | _]; [lia | reflexivity].
Qed.

Lemma cell_store_other board row col v row' col' :
  row' * N + col' <> row * N + col ->
  cell (store board row col v) row' col' = cell board row' col'.
Proof.
  intros Hne. unfold cell, store.
  destruct (Z.eqb_spec (row' * N + col') (row * N + col)); [contradiction | reflexivity].
Qed.

(** A direction [isValidMove] lets through is one [makeMove] knows. *)
Lemma validSource_target row col direction :
  validSource row col direction = true ->
  inGrid row col /\ exists newRow newCol, target row col direction = Some (newRow, newCol).
Proof.
  unfold validSource, target, isLeft, isRight, isUp, isDown.
  intros H. apply andb_true_iff in H as [Hsrc Hdir].
  split; [apply inGridb_spec, Hsrc |].
  destruct (Ascii.eqb direction "l"), (Ascii.eqb direction "L"),
    (Ascii.eqb direction "r"), (Ascii.eqb direction "R"),
    (Ascii.eqb direction "u"), (Ascii.eqb direction "U"),
    (Ascii.eqb direction "d"), (Ascii.eqb direction "D");
    simpl in *; try discriminate Hdir; eauto.
Qed.

(** A move the Musketeer validator accepts goes from a Musketeer to an enemy
    on the grid. *)
Lemma isValidMusketeerMove_accepted board row col direction :
  Eff.result (isValidMusketeerMove row col direction) board = true ->
  exists newRow newCol,
    target row col direction = Some (newRow, newCol)
    /\ inGrid row col /\ inGrid newRow newCol
    /\ cell board row col = "M" /\ cell board newRow newCol = "o".
Proof.
  intros Hacc.
  pose proof Hacc as Hsrc. rewrite isValidMusketeerMove_result in Hsrc.
  unfold musketeerAccepts in Hsrc. apply andb_true_iff in Hsrc as [Hsrc _].
  apply validSource_target in Hsrc as (Hsrc & newRow & newCol & Htarget).
  exists newRow, newCol.
  destruct (Z.le_gt_cases 0 newRow), (Z.lt_ge_cases newRow N),
    (Z.le_gt_cases 0 newCol), (Z.lt_ge_cases newCol N);
    try (rewrite (isValidMusketeerMove_rejects_off_grid board row col direction
                    newRow newCol Hsrc Htarget) in Hacc
           by (unfold inGrid; lia);
         discriminate Hacc).
  assert (Hdst : inGrid newRow newCol) by (unfold inGrid; lia).
  rewrite isValidMusketeerMove_result in Hacc.
  apply (accepts_on_grid board row col direction newRow newCol Hsrc Htarget Hdst)
    in Hacc as [HM Ho].
  auto.
Qed.

(** The counts after the two writes of [makeMove], when both bytes are
    bytes of the board. *)
Lemma countPiece_move piece board row col newRow newCol v :
  0 <= row * N + col < N * N ->
  0 <= newRow * N + newCol < N * N ->
  newRow * N + newCol <> row * N + col ->
  countPiece piece (store (store board row col ".") newRow newCol v)
  = countPiece piece board
    - ind (Ascii.eqb (cell board row col) piece) + ind (Ascii.eqb "." piece)
    - ind (Ascii.eqb (cell board newRow newCol) piece) + ind (Ascii.eqb v piece).
Proof.
  intros Hsrc Hdst Hne.
  rewrite countPiece_store by exact Hdst.
  rewrite cell_store_other by exact Hne.
  rewrite countPiece_store by exact Hsrc.
  reflexivity.
Qed.

Lemma target_one_step row col direction newRow newCol :
  target row col direction = Some (newRow, newCol) ->
  newRow * N + newCol <> row * N + col.
Proof.
  intros Htarget. unfold N.
  destruct (target_cases _ _ _ _ _ Htarget)
    as [(_ & _ & _ & _ & -> & ->) | [(_ & _ & _ & _ & -> & ->)
       | [(_ & _ & _ & _ & -> & ->) | (_ & _ & _ & _ & -> & ->)]]]; lia.
Qed.

Lemma inGrid_offset row col : inGrid row col -> 0 <= row * N + col < N * N.
Proof. unfold inGrid, N. lia. Qed.

(** A move the Musketeer validator accepts takes one enemy off the grid and
    keeps the number of Musketeers. *)
Lemma musketeer_move_counts board row col direction :
  Eff.result (isValidMusketeerMove row col direction) board = true ->
  exists board',
    makeMove row col direction board true = Some board'
    /\ countEnemies board' = countEnemies board - 1
    /\ countMusketeers board' = countMusketeers board.
Proof.
  intros Hacc.
  apply isValidMusketeerMove_accepted in Hacc
    as (newRow & newCol & Htarget & Hsrc & Hdst & HM & Ho).
  unfold makeMove. rewrite Htarget. eexists. split; [reflexivity |].
  pose proof (target_one_step _ _ _ _ _ Htarget) as Hne.
  apply inGrid_offset in Hsrc, Hdst.
  unfold countEnemies, countMusketeers.
  rewrite !countPiece_move by assumption.
  rewrite HM, Ho.
  generalize (countPiece "o" board), (countPiece "M" board).
  intros enemies musketeers. simpl. lia.
Qed.

(** A move the enemy validator accepts goes from an enemy to a byte that
    holds ['.'], on the grid or not. *)
Lemma isValidEnemyMove_accepted board row col direction :
  Eff.result (isValidEnemyMove row col direction) board = true ->
  exists newRow newCol,
    target row col direction = Some (newRow, newCol)
    /\ inGrid row col
    /\ cell board row col = "o" /\ cell board newRow newCol = ".".
Proof.
  rewrite isValidEnemyMove_result. unfold enemyAccepts. intros Hacc.
  apply andb_true_iff in Hacc as [Hsrc Hacc].
  apply validSource_target in Hsrc as (Hsrc & newRow & newCol & Htarget).
  exists newRow, newCol. split; [exact Htarget |]. split; [exact Hsrc |].
  destruct (target_cases _ _ _ _ _ Htarget)
    as [(El & Er & Eu & Ed & -> & ->) | [(El & Er & Eu & Ed & -> & ->)
       | [(El & Er & Eu & Ed & -> & ->) | (El & Er & Eu & Ed & -> & ->)]]];
    rewrite El, Er, Eu, Ed in Hacc;
    rewrite ?andb_false_r, ?orb_false_r, ?andb_true_r in Hacc; simpl in Hacc;
    apply andb_true_iff in Hacc as [Ho Hdot];
    apply eqb_true_iff in Ho, Hdot; auto.
Qed.

(** A move the enemy validator accepts whose destination is a byte of the
    board keeps both counts. *)
Lemma enemy_move_counts_inside board row col direction newRow newCol :
  Eff.result (isValidEnemyMove row col direction) board = true ->
  target row col direction = Some (newRow, newCol) ->
  0 <= newRow * N + newCol < N * N ->
  exists board',
    makeMove row col direction board false = Some board'
    /\ countEnemies board' = countEnemies board
    /\ countMusketeers board' = countMusketeers board.
Proof.
  intros Hacc Htarget Hdst.
  apply isValidEnemyMove_accepted in Hacc
    as (newRow' & newCol' & Htarget' & Hsrc & Ho & Hdot).
  rewrite Htarget in Htarget'. injection Htarget' as <- <-.
  unfold makeMove. rewrite Htarget. eexists. split; [reflexivity |].
  pose proof (target_one_step _ _ _ _ _ Htarget) as Hne.
  apply inGrid_offset in Hsrc.
  unfold countEnemies, countMusketeers.
  rewrite !countPiece_move by assumption.
  rewrite Ho, Hdot.
  generalize (countPiece "o" board), (countPiece "M" board).
  intros enemies musketeers. simpl. lia.
Qed.

(** A move the enemy validator accepts whose destination is a byte outside
    the board takes the enemy off the grid. *)
Lemma enemy_move_counts_outside board row col direction newRow newCol :
  Eff.result (isValidEnemyMove row col direction) board = true ->
  target row col direction = Some (newRow, newCol) ->
  ~ (0 <= newRow * N + newCol < N * N) ->
  exists board',
    makeMove row col direction board false = Some board'
    /\ countEnemies board' = countEnemies board - 1
    /\ countMusketeers board' = countMusketeers board.
Proof.
  intros Hacc Htarget Hdst.
  apply isValidEnemyMove_accepted in Hacc
    as (newRow' & newCol' & Htarget' & Hsrc & Ho & Hdot).
  rewrite Htarget in Htarget'. injection Htarget' as <- <-.
  unfold makeMove. rewrite Htarget. eexists. split; [reflexivity |].
  apply inGrid_offset in Hsrc.
  unfold countEnemies, countMusketeers.
  rewrite !(countPiece_store_outside _ _ newRow newCol) by exact Hdst.
  rewrite !(countPiece_store _ _ row col) by exact Hsrc.
  rewrite Ho.
  generalize (countPiece "o" board), (countPiece "M" board).
  intros enemies musketeers. simpl. lia.
Qed.


(** ** [readBoard] and [writeBoard] *)

Lemma isSymbol_cases (c : ascii) :
  isSymbol c = true <-> c = "M" \/ c = "o" \/ c = ".".
Proof.
  unfold isSymbol. rewrite !orb_true_iff, !eqb_true_iff. tauto.
Qed.

(** A cell symbol is taken as it comes. *)
Lemma readCell_symbol (c : ascii) (rest : list ascii) :
  isSymbol c = true -> readCell (c :: rest) = Some (c, rest).
Proof.
  intros H. apply isSymbol_cases in H as [-> | [-> | ->]]; reflexivity.
Qed.

(** What [readCell] returns is a cell symbol. *)
Lemma readCell_returns_symbol (chars : list ascii) (c : ascii) (rest : list ascii) :
  readCell chars = Some (c, rest) -> isSymbol c = true.
Proof.
  induction chars as [| ch chars IH]; simpl; [discriminate |].
  unfold isSymbol.
  destruct (Ascii.eqb ch "o") eqn:Eo, (Ascii.eqb ch "M") eqn:EM,
    (Ascii.eqb ch "010") eqn:En, (Ascii.eqb ch " ") eqn:Es,
    (Ascii.eqb ch ".") eqn:Ed; simpl;
    try discriminate; try exact IH;
    intros [= <- <-]; rewrite ?Eo, ?EM, ?Ed; reflexivity.
Qed.

Lemma readCells_symbol i k todo c rest start :
  isSymbol c = true ->
  readCells ((i, k) :: todo) (c :: rest) start
  = readCells todo rest (store start i k c).
Proof.
  intros H. cbn [readCells]. rewrite (readCell_symbol c rest H). reflexivity.
Qed.

Lemma readCells_space todo rest start :
  readCells todo (" " :: rest) start = readCells todo rest start.
Proof. destruct todo as [| [i k] todo]; reflexivity. Qed.

Lemma readCells_newline todo rest start :
  readCells todo ("010" :: rest) start = readCells todo rest start.
Proof. destruct todo as [| [i k] todo]; reflexivity. Qed.

Lemma boardText_eq board :
  boardText board
  = [cell board 0 0; " "; cell board 0 1; " "; cell board 0 2; " ";
     cell board 0 3; " "; cell board 0 4; "010";
     cell board 1 0; " "; cell board 1 1; " "; cell board 1 2; " ";
     cell board 1 3; " "; cell board 1 4; "010";
     cell board 2 0; " "; cell board 2 1; " "; cell board 2 2; " ";
     cell board 2 3; " "; cell board 2 4; "010";
     cell board 3 0; " "; cell board 3 1; " "; cell board 3 2; " ";
     cell board 3 3; " "; cell board 3 4; "010";
     cell board 4 0; " "; cell board 4 1; " "; cell board 4 2; " ";
     cell board 4 3; " "; cell board 4 4; "010"].
Proof. reflexivity. Qed.

(** Reading back what [writeBoard] wrote: [readBoard] succeeds and the grid
    of the board read is the grid of the board written. *)
Lemma readBoard_boardText (board start : memory) :
  validBoard board ->
  exists board',
    readBoard start (Some (boardText board)) = (true, board')
    /\ forall row col, inGrid row col -> cell board' row col = cell board row col.
Proof.
  intros Hvalid.
  assert (Hsym : forall row col,
             0 <= row < 5 -> 0 <= col < 5 -> isSymbol (cell board row col) = true)
    by (intros; apply Hvalid; split; assumption).
  unfold readBoard. fold positions. rewrite boardText_eq, positions_eq.
  repeat (rewrite readCells_symbol by (apply Hsym; lia);
          rewrite ?readCells_space, ?readCells_newline).
  eexists. split; [reflexivity |].
  intros row col [Hr Hc].
  five row Hr; five col Hc; reflexivity.
Qed.

(** C7.  For every board whose twenty-five cells hold ['M'], ['o'] or ['.'],
    [writeBoard] succeeds when the file opens and [readBoard] on the file it
    wrote succeeds and gives back the same twenty-five cells. *)
Theorem readBoard_writeBoard_roundtrip (board start : memory) :
  validBoard board ->
  fst (writeBoard board true) = true
  /\ exists board',
       readBoard start (snd (writeBoard board true)) = (true, board')
       /\ forall row col, inGrid row col -> cell board' row col = cell board row col.
Proof.
  intros Hvalid. split; [reflexivity |].
  exact (readBoard_boardText board start Hvalid).
Qed.

Lemma validBoard_cornerBoard : validBoard cornerBoard.
Proof.
  intros row col [Hr Hc]. five row Hr; five col Hc; reflexivity.
Qed.

Lemma readBoard_writeBoard_roundtrip_witness :
  validBoard cornerBoard
  /\ fst (writeBoard cornerBoard true) = true
  /\ exists board',
       readBoard blank (snd (writeBoard cornerBoard true)) = (true, board')
       /\ forall row col,
            inGrid row col -> cell board' row col = cell cornerBoard row col.
Proof.
  split; [exact validBoard_cornerBoard |].
  apply (readBoard_writeBoard_roundtrip cornerBoard blank validBoard_cornerBoard).
Defined.

(** ** What [readBoard] checks *)

Lemma positions_offsets_NoDup : NoDup (map offset positions).
Proof.
  rewrite positions_eq. cbv [map offset fst snd N].
  repeat (constructor;
          [cbv; intros H;
           repeat (destruct H as [H | H]; [discriminate H |]); exact H |]).
  constructor.
Qed.

(** When [readCells] succeeds, every cell it was to fill holds a cell
    symbol, and the bytes it was not to fill are as before. *)
Lemma readCells_success (todo : list (Z * Z)) :
  NoDup (map offset todo) ->
  forall chars start board',
    readCells todo chars start = (true, board') ->
    (forall i k, In (i, k) todo -> isSymbol (cell board' i k) = true)
    /\ (forall off, ~ In off (map offset todo) -> board' off = start off).
Proof.
  induction todo as [| [i k] todo IH]; intros Hnodup chars start board'; simpl.
  - intros [= <-]. split; [intros i k [] | reflexivity].
  - inversion Hnodup as [| x l Hnotin Hnodup']; subst.
    destruct (readCell chars) as [[ch rest] |] eqn:Ecell; [| discriminate].
    intros Hread.
    destruct (IH Hnodup' rest (store start i k ch) board' Hread) as [Hsym Hsame].
    split.
    + intros i' k' [[= <- <-] | Hin]; [| apply Hsym, Hin].
      unfold cell. change (i * N + k) with (offset (i, k)).
      rewrite (Hsame _ Hnotin). unfold store, offset. simpl.
      rewrite Z.eqb_refl. exact (readCell_returns_symbol _ _ _ Ecell).
    + intros off Hoff. rewrite Hsame by tauto.
      unfold store. unfold offset in Hoff. simpl in Hoff.
      destruct (Z.eqb_spec off (i * N + k)); [| reflexivity].
      exfalso. apply Hoff. left. congruence.
Qed.

(** C8, as stated, fails: a file of twenty-five cells with no Musketeer is
    accepted. *)
Lemma readBoard_accepts_no_musketeer :
  ~ (forall (start : memory) (chars : list ascii),
       fst (readBoard start (Some chars)) = true ->
       countMusketeers (snd (readBoard start (Some chars))) = 3).
Proof.
  intros H. specialize (H blank enemiesOnlyFile eq_refl).
  vm_compute in H. discriminate H.
Qed.

(** ** The turn loop *)

(** One pass of the loop on a text that parses, by what the validator
    says. *)
Lemma playTurn_parsed opens g playerMove direction :
  sameText playerMove interruptUpper || sameText playerMove interruptLower = false ->
  scanMove playerMove = Some direction ->
  playTurn opens g playerMove
  = let row := moveRow playerMove in
    let col := moveCol playerMove in
    let tr := Eff.trace (validator (musketeersTurn g) row col direction) (board g) in
    if Eff.result (validator (musketeersTurn g) row col direction) (board g) then
      match makeMove row col direction (board g) (musketeersTurn g) with
      | Some board' =>
          (Continue (Game board' (negb (musketeersTurn g))),
           prompt g :: tr ++ [Say (display_board board')])
      | None => (Undefined, prompt g :: tr)
      end
    else (Continue g, prompt g :: tr).
Proof.
  intros Hquit Hscan. unfold playTurn, Eff.result, Eff.trace, prompt.
  rewrite Hquit, Hscan. cbv zeta.
  destruct (validator (musketeersTurn g) (moveRow playerMove) (moveCol playerMove)
              direction (board g)) as [ok tr].
  reflexivity.
Qed.

(** A move either validator accepts has a direction [makeMove] knows. *)
Lemma validator_accepted_target mTurn board row col direction :
  Eff.result (validator mTurn row col direction) board = true ->
  exists newRow newCol, target row col direction = Some (newRow, newCol).
Proof.
  destruct mTurn; simpl; intros Hacc.
  - apply isValidMusketeerMove_accepted in Hacc as (newRow & newCol & H & _). eauto.
  - apply isValidEnemyMove_accepted in Hacc as (newRow & newCol & H & _). eauto.
Qed.

(** The loop goes on from the game the pass left. *)
Lemma play_continue opens g playerMove inputs g' :
  winGame (board g) = false ->
  fst (playTurn opens g playerMove) = Continue g' ->
  play opens (playerMove :: inputs) g
  = let '(e, g'', tr') := play opens inputs g' in
    (e, g'', snd (playTurn opens g playerMove) ++ tr').
Proof.
  intros Hwin Hturn. cbn [play]. rewrite Hwin.
  destruct (playTurn opens g playerMove) as [o tr]. simpl in Hturn. subst o.
  reflexivity.
Qed.

(** C6.  In one pass of the turn loop on a move text that parses: when the
    validator of the side to move rejects the move, the game is as before,
    the board untouched and the same side to move, and the loop goes on from
    it; when it accepts, the move is applied by [makeMove], the other side is
    to move, and the loop goes on from there. *)
Theorem playTurn_rejected_or_applied
  (opens : bool) (g : game) (playerMove : list ascii) (direction : ascii) :
  sameText playerMove interruptUpper || sameText playerMove interruptLower = false ->
  scanMove playerMove = Some direction ->
  (Eff.result (validator (musketeersTurn g) (moveRow playerMove)
                 (moveCol playerMove) direction) (board g) = false ->
   fst (playTurn opens g playerMove) = Continue g
   /\ forall inputs,
        winGame (board g) = false ->
        play opens (playerMove :: inputs) g
        = let '(e, g'', tr') := play opens inputs g in
          (e, g'', snd (playTurn opens g playerMove) ++ tr'))
  /\ (Eff.result (validator (musketeersTurn g) (moveRow playerMove)
                    (moveCol playerMove) direction) (board g) = true ->
      exists board',
        makeMove (moveRow playerMove) (moveCol playerMove) direction
          (board g) (musketeersTurn g) = Some board'
        /\ fst (playTurn opens g playerMove)
           = Continue (Game board' (negb (musketeersTurn g)))
        /\ forall inputs,
             winGame (board g) = false ->
             play opens (playerMove :: inputs) g
             = let '(e, g'', tr') :=
                 play opens inputs (Game board' (negb (musketeersTurn g))) in
               (e, g'', snd (playTurn opens g playerMove) ++ tr')).
Proof.
  intros Hquit Hscan.
  pose proof (playTurn_parsed opens g playerMove direction Hquit Hscan) as Hturn.
  cbv zeta in Hturn.
  split; intros Hres; rewrite Hres in Hturn.
  - assert (Hfst : fst (playTurn opens g playerMove) = Continue g)
      by (rewrite Hturn; reflexivity).
    split; [exact Hfst |].
    intros inputs Hwin. apply play_continue; assumption.
  - destruct (validator_accepted_target _ _ _ _ _ Hres) as (newRow & newCol & Htarget).
    unfold makeMove in *. rewrite Htarget in *.
    eexists. split; [reflexivity |].
    assert (Hfst : fst (playTurn opens g playerMove)
                   = Continue
                       (Game (store (store (board g) (moveRow playerMove)
                                       (moveCol playerMove) ".")
                                newRow newCol
                                (if musketeersTurn g then "M" else "o"))
                          (negb (musketeersTurn g))))
      by (rewrite Hturn; reflexivity).
    split; [exact Hfst |].
    intros inputs Hwin. apply play_continue; assumption.
Qed.

Lemma playTurn_rejected_or_applied_witness :
  (sameText captureRight interruptUpper || sameText captureRight interruptLower = false
   /\ scanMove captureRight = Some "r"
   /\ Eff.result (validator true (moveRow captureRight) (moveCol captureRight) "r")
        cornerBoard = true
   /\ exists board',
        makeMove (moveRow captureRight) (moveCol captureRight) "r" cornerBoard true
        = Some board'
        /\ fst (playTurn true (Game cornerBoard true) captureRight)
           = Continue (Game board' false)
        /\ forall inputs,
             winGame cornerBoard = false ->
             play true (captureRight :: inputs) (Game cornerBoard true)
             = let '(e, g'', tr') := play true inputs (Game board' false) in
               (e, g'',
                snd (playTurn true (Game cornerBoard true) captureRight) ++ tr'))
  /\ (sameText moveUp interruptUpper || sameText moveUp interruptLower = false
      /\ scanMove moveUp = Some "u"
      /\ Eff.result (validator true (moveRow moveUp) (moveCol moveUp) "u")
           cornerBoard = false
      /\ fst (playTurn true (Game cornerBoard true) moveUp)
         = Continue (Game cornerBoard true)
      /\ forall inputs,
           winGame cornerBoard = false ->
           play true (moveUp :: inputs) (Game cornerBoard true)
           = let '(e, g'', tr') := play true inputs (Game cornerBoard true) in
             (e, g'', snd (playTurn true (Game cornerBoard true) moveUp) ++ tr')).
Proof.
  split.
  - assert (Hquit : sameText captureRight interruptUpper
                    || sameText captureRight interruptLower = false) by reflexivity.
    assert (Hscan : scanMove captureRight = Some "r") by reflexivity.
    assert (Hres : Eff.result
                     (validator true (moveRow captureRight) (moveCol captureRight) "r")
                     cornerBoard = true) by reflexivity.
    split; [exact Hquit |]. split; [exact Hscan |]. split; [exact Hres |].
    exact (proj2 (playTurn_rejected_or_applied true (Game cornerBoard true)
                    captureRight "r" Hquit Hscan) Hres).
  - assert (Hquit : sameText moveUp interruptUpper
                    || sameText moveUp interruptLower = false) by reflexivity.
    assert (Hscan : scanMove moveUp = Some "u") by reflexivity.
    assert (Hres : Eff.result (validator true (moveRow moveUp) (moveCol moveUp) "u")
                     cornerBoard = false) by reflexivity.
    split; [exact Hquit |]. split; [exact Hscan |]. split; [exact Hres |].
    exact (proj1 (playTurn_rejected_or_applied true (Game cornerBoard true)
                    moveUp "u" Hquit Hscan) Hres).
Defined.

(** ** The move text [x,9=z] *)

(** C9, as the code has it.  The text [x,9=z] has the form the parser asks
    for: [sscanf] stores three characters and the move, row 23, column 8,
    direction [z], goes to the validator of the side to move, which rejects
    it at the bounds of the source position.  The game is as before: the
    same board and the same side to move. *)
Theorem scenarioD_rejected_by_validator (opens : bool) (g : game) :
  scanMove scenarioD = Some "z"
  /\ moveRow scenarioD = 23 /\ moveCol scenarioD = 8
  /\ validator (musketeersTurn g) 23 8 "z" (board g)
     = (false, [Say MsgOutOfBoard;
                Say (if musketeersTurn g then MsgNoMusketeers else MsgNoEnemies)])
  /\ playTurn opens g scenarioD
     = (Continue g,
        [prompt g; Say MsgOutOfBoard;
         Say (if musketeersTurn g then MsgNoMusketeers else MsgNoEnemies)])
  /\ playTurn opens g scenarioDBare = playTurn opens g scenarioD.
Proof.
  destruct g as [b []]; repeat split.
Qed.

(** C9, as stated, fails: the text is not rejected where it is parsed, and
    the message for a malformed input is not printed. *)
Lemma scenarioD_not_malformed :
  ~ malformed scenarioD
  /\ ~ malformed scenarioDBare
  /\ ~ In (Say MsgInvalidFormat)
         (snd (playTurn true (Game cornerBoard true) scenarioD)).
Proof.
  split; [discriminate |]. split; [discriminate |].
  cbv. intros [H | [H | [H | []]]]; discriminate H.
Qed.

(* ================================================================= *)
(** * Further properties of the program *)

(** ** Traces of the validators *)

Module EffTrace.

Lemma trace_ret {A} (a : A) board : Eff.trace (Eff.ret a) board = [].
Proof. reflexivity. Qed.

Lemma trace_printf m board : Eff.trace (Eff.printf m) board = [Say m].
Proof. reflexivity. Qed.

Lemma trace_holds row col c board :
  Eff.trace (Eff.holds row col c) board = [Fetch row col].
Proof. reflexivity. Qed.

Lemma trace_and a b board :
  Eff.trace (a &&& b) board
  = Eff.trace a board ++ (if Eff.result a board then Eff.trace b board else []).
Proof.
  unfold Eff.and. rewrite EffFacts.trace_bind.
  destruct (Eff.result a board); reflexivity.
Qed.

Lemma trace_incrIf cond cnt board :
  Eff.trace (Eff.incrIf cond cnt) board = Eff.trace cond board.
Proof.
  unfold Eff.incrIf. rewrite EffFacts.trace_bind. simpl. apply app_nil_r.
Qed.

Lemma trace_if {A} (x : bool) (c d : Eff.t A) board :
  Eff.trace (if x then c else d) board
  = if x then Eff.trace c board else Eff.trace d board.
Proof. destruct x; reflexivity. Qed.

(** One test of a validator reads the source cell and, when it holds the
    piece asked for, the neighbour. *)
Lemma trace_test (rest : Eff.t bool) row col p row' col' q board :
  Eff.trace rest board = [] ->
  Eff.trace (Eff.holds row col p &&& Eff.holds row' col' q &&& rest) board
  = Fetch row col
    :: (if Ascii.eqb (cell board row col) p then [Fetch row' col'] else []).
Proof.
  intros Hrest.
  rewrite !trace_and, !trace_holds, EffFacts.result_and, !EffFacts.result_holds,
    Hrest.
  destruct (Ascii.eqb (cell board row col) p); simpl; [| reflexivity].
  destruct (Ascii.eqb (cell board row' col') q); reflexivity.
Qed.

End EffTrace.

(** The reads of one test. *)
Lemma trace_musketeer_test row col row' col' x y board :
  Eff.trace (Eff.holds row col "M" &&& Eff.holds row' col' "o"
             &&& Eff.ret x &&& Eff.ret y) board
  = Fetch row col
    :: (if Ascii.eqb (cell board row col) "M" then [Fetch row' col'] else []).
Proof.
  rewrite EffTrace.trace_and, EffTrace.trace_ret.
  rewrite (EffTrace.trace_test (Eff.ret x)) by reflexivity.
  destruct (Eff.result _ board); apply app_nil_r.
Qed.

Lemma trace_enemy_test row col row' col' x board :
  Eff.trace (Eff.holds row col "o" &&& Eff.holds row' col' "."
             &&& Eff.ret x) board
  = Fetch row col
    :: (if Ascii.eqb (cell board row col) "o" then [Fetch row' col'] else []).
Proof. apply EffTrace.trace_test. reflexivity. Qed.

Lemma isValidMove_trace row col direction board :
  Eff.trace (isValidMove row col direction) board
  = if inGridb row col then
      if isLeft direction || isRight direction || isUp direction || isDown direction
      then []
      else [Say MsgInvalidDirection]
    else [Say MsgOutOfBoard].
Proof.
  unfold isValidMove, inGridb, isLeft, isRight, isUp, isDown.
  rewrite EffFacts.trace_bind, EffTrace.trace_ret, app_nil_r.
  replace (row >=? 0) with (0 <=? row) by (rewrite Z.geb_leb; reflexivity).
  replace (col >=? 0) with (0 <=? col) by (rewrite Z.geb_leb; reflexivity).
  destruct ((0 <=? row) && (row <? N) && (0 <=? col) && (col <? N)); simpl;
    [| reflexivity].
  rewrite <- !orb_assoc.
  destruct (_ || _); reflexivity.
Qed.

(** The end of a validator: [if (cnt > 0) return 1;] then the message. *)
Lemma verdict_result (c : Eff.t Z) (m : message) board :
  Eff.result (cnt <- c ;;
              if cnt >? 0 then Eff.ret true else Eff.printf m ;;; Eff.ret false)
    board
  = (Eff.result c board >? 0).
Proof.
  rewrite EffFacts.result_bind. destruct (Eff.result c board >? 0); reflexivity.
Qed.

Lemma verdict_trace (c : Eff.t Z) (m : message) board :
  Eff.trace (cnt <- c ;;
             if cnt >? 0 then Eff.ret true else Eff.printf m ;;; Eff.ret false)
    board
  = Eff.trace c board ++ (if Eff.result c board >? 0 then [] else [Say m]).
Proof.
  rewrite EffFacts.trace_bind. destruct (Eff.result c board >? 0); reflexivity.
Qed.

(** The four neighbours, in the order the validators test them. *)
Lemma isValidMusketeerMove_trace row col direction board :
  Eff.trace (isValidMusketeerMove row col direction) board
  = Eff.trace (isValidMove row col direction) board
    ++ (if validSource row col direction then
          (Fetch row col
           :: (if Ascii.eqb (cell board row col) "M" then [Fetch (row - 1) col] else []))
          ++ (Fetch row col
              :: (if Ascii.eqb (cell board row col) "M" then [Fetch (row + 1) col] else []))
          ++ (Fetch row col
              :: (if Ascii.eqb (cell board row col) "M" then [Fetch row (col - 1)] else []))
          ++ (Fetch row col
              :: (if Ascii.eqb (cell board row col) "M" then [Fetch row (col + 1)] else []))
        else [])
    ++ (if musketeerAccepts board row col direction then [] else [Say MsgNoMusketeers]).
Proof.
  rewrite <- isValidMusketeerMove_result.
  unfold isValidMusketeerMove.
  rewrite EffFacts.trace_bind, EffFacts.result_bind, isValidMove_result.
  f_equal.
  rewrite verdict_trace, verdict_result. f_equal.
  destruct (validSource row col direction); [| reflexivity].
  rewrite !EffFacts.trace_bind, !EffTrace.trace_incrIf, !trace_musketeer_test.
  reflexivity.
Qed.

Lemma isValidEnemyMove_trace row col direction board :
  Eff.trace (isValidEnemyMove row col direction) board
  = Eff.trace (isValidMove row col direction) board
    ++ (if validSource row col direction then
          (Fetch row col
           :: (if Ascii.eqb (cell board row col) "o" then [Fetch (row - 1) col] else []))
          ++ (Fetch row col
              :: (if Ascii.eqb (cell board row col) "o" then [Fetch (row + 1) col] else []))
          ++ (Fetch row col
              :: (if Ascii.eqb (cell board row col) "o" then [Fetch row (col - 1)] else []))
          ++ (Fetch row col
              :: (if Ascii.eqb (cell board row col) "o" then [Fetch row (col + 1)] else []))
        else [])
    ++ (if enemyAccepts board row col direction then [] else [Say MsgNoEnemies]).
Proof.
  rewrite <- isValidEnemyMove_result.
  unfold isValidEnemyMove.
  rewrite EffFacts.trace_bind, EffFacts.result_bind, isValidMove_result.
  f_equal.
  rewrite verdict_trace, verdict_result. f_equal.
  destruct (validSource row col direction); [| reflexivity].
  rewrite !EffFacts.trace_bind, !EffTrace.trace_incrIf, !trace_enemy_test.
  reflexivity.
Qed.

(** The trace of the validator of either side. *)
Lemma validator_trace mTurn row col direction board :
  Eff.trace (validator mTurn row col direction) board
  = Eff.trace (isValidMove row col direction) board
    ++ (if validSource row col direction then
          (Fetch row col
           :: (if Ascii.eqb (cell board row col) (mover mTurn)
               then [Fetch (row - 1) col] else []))
          ++ (Fetch row col
              :: (if Ascii.eqb (cell board row col) (mover mTurn)
                  then [Fetch (row + 1) col] else []))
          ++ (Fetch row col
              :: (if Ascii.eqb (cell board row col) (mover mTurn)
                  then [Fetch row (col - 1)] else []))
          ++ (Fetch row col
              :: (if Ascii.eqb (cell board row col) (mover mTurn)
                  then [Fetch row (col + 1)] else []))
        else [])
    ++ (if Eff.result (validator mTurn row col direction) board then []
        else [Say (if mTurn then MsgNoMusketeers else MsgNoEnemies)]).
Proof.
  destruct mTurn; simpl validator; simpl mover.
  - rewrite isValidMusketeerMove_trace, isValidMusketeerMove_result. reflexivity.
  - rewrite isValidEnemyMove_trace, isValidEnemyMove_result. reflexivity.
Qed.

Lemma direction_letters direction :
  isLeft direction || isRight direction || isUp direction || isDown direction = true
  <-> In direction directionLetters.
Proof.
  unfold isLeft, isRight, isUp, isDown, directionLetters. simpl.
  rewrite !orb_true_iff, !eqb_true_iff. intuition congruence.
Qed.

Lemma validSource_spec row col direction :
  validSource row col direction = true
  <-> inGrid row col /\ In direction directionLetters.
Proof.
  unfold validSource.
  rewrite andb_true_iff, inGridb_spec, direction_letters. reflexivity.
Qed.

(** X1.  [isValidMove] returns 1 exactly for a source position on the grid
    and one of the eight direction letters, and then prints nothing.  The
    position is tested first: off the grid the only message is the one about
    the board, whatever the direction; on the grid a wrong letter gives the
    message about the direction.  The board is never read. *)
Theorem isValidMove_source_then_direction
  (row col : Z) (direction : ascii) (board : memory) :
  (Eff.result (isValidMove row col direction) board = true
   <-> inGrid row col /\ In direction directionLetters)
  /\ (Eff.result (isValidMove row col direction) board = true ->
      Eff.trace (isValidMove row col direction) board = [])
  /\ (~ inGrid row col ->
      Eff.trace (isValidMove row col direction) board = [Say MsgOutOfBoard])
  /\ (inGrid row col -> ~ In direction directionLetters ->
      Eff.trace (isValidMove row col direction) board = [Say MsgInvalidDirection]).
Proof.
  rewrite isValidMove_result, isValidMove_trace.
  split; [apply validSource_spec |].
  unfold validSource.
  pose proof (inGridb_spec row col) as Hgrid.
  pose proof (direction_letters direction) as Hdir.
  destruct (inGridb row col);
    destruct (isLeft direction || isRight direction || isUp direction
              || isDown direction);
    simpl; repeat split; intros; try reflexivity; try discriminate;
    intuition congruence.
Qed.

(** The destination of a direction letter, and only of one. *)
Lemma target_letters row col direction :
  (exists newRow newCol, target row col direction = Some (newRow, newCol))
  <-> In direction directionLetters.
Proof.
  split.
  - intros (newRow & newCol & Htarget). apply direction_letters.
    destruct (target_cases _ _ _ _ _ Htarget)
      as [(-> & _) | [(_ & -> & _) | [(_ & _ & -> & _) | (_ & _ & _ & -> & _)]]];
      rewrite ?orb_true_r; reflexivity.
  - unfold directionLetters. simpl.
    intros [<- | [<- | [<- | [<- | [<- | [<- | [<- | [<- | []]]]]]]]];
      unfold target; simpl; eauto.
Qed.

(** X2.  What each validator accepts.  A move is accepted exactly when the
    source is on the grid and holds the mover's piece, the direction is one
    of the eight letters, the byte [makeMove] will write to holds what the
    mover may take (an enemy for a Musketeer, ['.'] for an enemy), and, for
    a Musketeer only, that destination is on the grid. *)
Theorem validator_accepts_iff
  (mTurn : bool) (board : memory) (row col : Z) (direction : ascii) :
  Eff.result (validator mTurn row col direction) board = true
  <-> inGrid row col
      /\ exists newRow newCol,
           target row col direction = Some (newRow, newCol)
           /\ cell board row col = mover mTurn
           /\ cell board newRow newCol = prey mTurn
           /\ (mTurn = true -> inGrid newRow newCol).
Proof.
  destruct mTurn; simpl validator; simpl mover; simpl prey; split.
  - intros Hacc.
    apply isValidMusketeerMove_accepted in Hacc
      as (newRow & newCol & Htarget & Hsrc & Hdst & HM & Ho).
    split; [exact Hsrc |]. exists newRow, newCol. auto.
  - intros (Hsrc & newRow & newCol & Htarget & HM & Ho & Hdst).
    rewrite isValidMusketeerMove_result.
    destruct (accepts_on_grid board row col direction newRow newCol Hsrc Htarget
                (Hdst eq_refl)) as [Hm _].
    apply Hm. auto.
  - intros Hacc.
    apply isValidEnemyMove_accepted in Hacc
      as (newRow & newCol & Htarget & Hsrc & Ho & Hdot).
    split; [exact Hsrc |]. exists newRow, newCol.
    split; [exact Htarget |]. split; [exact Ho |]. split; [exact Hdot |].
    discriminate.
  - intros (Hsrc & newRow & newCol & Htarget & Ho & Hdot & _).
    rewrite isValidEnemyMove_result. unfold enemyAccepts, validSource.
    rewrite (proj2 (inGridb_spec row col) Hsrc).
    destruct (target_cases _ _ _ _ _ Htarget)
      as [(-> & -> & -> & -> & -> & ->) | [(-> & -> & -> & -> & -> & ->)
         | [(-> & -> & -> & -> & -> & ->) | (-> & -> & -> & -> & -> & ->)]]];
      rewrite Ho, Hdot; simpl; rewrite ?andb_false_r, ?orb_true_r; reflexivity.
Qed.

(** The reads of a validator. *)
Lemma validator_fetches
  (mTurn : bool) (board : memory) (row col : Z) (direction : ascii) (r c : Z) :
  In (Fetch r c) (Eff.trace (validator mTurn row col direction) board) ->
  inGrid row col /\ In direction directionLetters
  /\ ((r = row /\ c = col)
      \/ (adjacent row col r c /\ cell board row col = mover mTurn)).
Proof.
  rewrite validator_trace, isValidMove_trace. intros Hin.
  apply in_app_or in Hin as [Hin | Hin].
  { destruct (inGridb row col);
      [destruct (_ || _) |]; simpl in Hin; intuition discriminate. }
  apply in_app_or in Hin as [Hin | Hin].
  2: { destruct (Eff.result _ board); simpl in Hin; intuition discriminate. }
  destruct (validSource row col direction) eqn:Hsrc; [| contradiction].
  apply validSource_spec in Hsrc as [Hsrc Hdir].
  split; [exact Hsrc |]. split; [exact Hdir |].
  unfold adjacent.
  destruct (Ascii.eqb_spec (cell board row col) (mover mTurn)) as [Hm | Hm];
    simpl in Hin;
    repeat (destruct Hin as [[= <- <-] | Hin]; [tauto |]);
    contradiction.
Qed.

(** X3.  What a validator reads.  It reads the board only for a source on
    the grid and a direction letter; every read is of the source cell or of
    one of its four neighbours, and a neighbour is read only when the source
    holds the mover's piece. *)
Theorem validator_reads_source_and_neighbours
  (mTurn : bool) (board : memory) (row col : Z) (direction : ascii) (r c : Z) :
  In (Fetch r c) (Eff.trace (validator mTurn row col direction) board) ->
  inGrid row col /\ In direction directionLetters
  /\ ((r = row /\ c = col)
      \/ (adjacent row col r c /\ cell board row col = mover mTurn)).
Proof. apply validator_fetches. Qed.

Lemma validator_reads_source_and_neighbours_witness :
  In (Fetch (-1) 0) (Eff.trace (validator true 0 0 "u") cornerBoard)
  /\ inGrid 0 0 /\ In "u" directionLetters
  /\ ((-1 = 0 /\ 0 = 0)
      \/ (adjacent 0 0 (-1) 0 /\ cell cornerBoard 0 0 = mover true)).
Proof.
  assert (Hin : In (Fetch (-1) 0) (Eff.trace (validator true 0 0 "u") cornerBoard))
    by (right; left; reflexivity).
  split; [exact Hin |].
  exact (validator_reads_source_and_neighbours true cornerBoard 0 0 "u" (-1) 0 Hin).
Defined.

(** X4.  When the source is not on the border of the grid, or does not hold
    the mover's piece, every subscript pair a validator reads is on the
    grid. *)
Theorem validator_reads_on_grid
  (mTurn : bool) (board : memory) (row col : Z) (direction : ascii) :
  (0 < row < N - 1 /\ 0 < col < N - 1) \/ cell board row col <> mover mTurn ->
  forallb fetchInGrid (Eff.trace (validator mTurn row col direction) board) = true.
Proof.
  intros Hsafe. apply forallb_forall. intros [r c | m | file] Hin;
    [| reflexivity | reflexivity].
  apply validator_fetches in Hin as (Hsrc & _ & Hread).
  simpl. apply inGridb_spec.
  destruct Hread as [[-> ->] | [Hadj Hm]]; [exact Hsrc |].
  destruct Hsafe as [Hinner | Hother]; [| contradiction].
  unfold adjacent, inGrid, N in *. lia.
Qed.

Lemma validator_reads_on_grid_witness :
  ((0 < 2 < N - 1 /\ 0 < 2 < N - 1) \/ cell edgeBoard 2 2 <> mover true)
  /\ forallb fetchInGrid (Eff.trace (validator true 2 2 "u") edgeBoard) = true.
Proof.
  assert (Hsafe : (0 < 2 < N - 1 /\ 0 < 2 < N - 1)
                  \/ cell edgeBoard 2 2 <> mover true)
    by (left; unfold N; lia).
  split; [exact Hsafe |].
  exact (validator_reads_on_grid true edgeBoard 2 2 "u" Hsafe).
Defined.

(** ** What [makeMove] writes *)

Lemma target_adjacent row col direction newRow newCol :
  target row col direction = Some (newRow, newCol) ->
  adjacent row col newRow newCol.
Proof.
  intros Htarget. unfold adjacent.
  destruct (target_cases _ _ _ _ _ Htarget)
    as [(_ & _ & _ & _ & -> & ->) | [(_ & _ & _ & _ & -> & ->)
       | [(_ & _ & _ & _ & -> & ->) | (_ & _ & _ & _ & -> & ->)]]]; tauto.
Qed.

(** X5.  [makeMove] has a destination exactly for the eight direction
    letters.  It then writes two bytes and no other: the source becomes
    ['.'] and the cell one step away in the direction given becomes the
    mover's piece, with no test of what either held and no test of
    bounds. *)
Theorem makeMove_writes_two_bytes
  (row col : Z) (direction : ascii) (board : memory) (mTurn : bool) :
  (makeMove row col direction board mTurn = None
   <-> ~ In direction directionLetters)
  /\ (forall board',
        makeMove row col direction board mTurn = Some board' ->
        exists newRow newCol,
          target row col direction = Some (newRow, newCol)
          /\ adjacent row col newRow newCol
          /\ cell board' row col = "."
          /\ cell board' newRow newCol = mover mTurn
          /\ forall off,
               off <> row * N + col -> off <> newRow * N + newCol ->
               board' off = board off).
Proof.
  unfold makeMove. split.
  - rewrite <- (target_letters row col).
    destruct (target row col direction) as [[newRow newCol] |] eqn:Htarget.
    + split; [intros H; discriminate H |]. intros H. exfalso. apply H. eauto.
    + split; [| reflexivity]. intros _ (newRow & newCol & H). discriminate H.
  - intros board'.
    destruct (target row col direction) as [[newRow newCol] |] eqn:Htarget;
      [| discriminate].
    intros [= <-]. exists newRow, newCol.
    pose proof (target_one_step _ _ _ _ _ Htarget) as Hne.
    split; [reflexivity |]. split; [apply target_adjacent with direction, Htarget |].
    unfold cell, store, mover.
    split; [| split].
    + destruct (Z.eqb_spec (row * N + col) (newRow * N + newCol)); [congruence |].
      rewrite Z.eqb_refl. reflexivity.
    + rewrite Z.eqb_refl. reflexivity.
    + intros off H1 H2.
      destruct (Z.eqb_spec off (newRow * N + newCol)); [contradiction |].
      destruct (Z.eqb_spec off (row * N + col)); [contradiction | reflexivity].
Qed.

(** X6.  A move the Musketeer validator accepts is applied by [makeMove]
    with one enemy fewer on the grid and as many Musketeers as before. *)
Theorem accepted_musketeer_move_captures_one
  (board : memory) (row col : Z) (direction : ascii) :
  Eff.result (isValidMusketeerMove row col direction) board = true ->
  exists board',
    makeMove row col direction board true = Some board'
    /\ countEnemies board' = countEnemies board - 1
    /\ countMusketeers board' = countMusketeers board.
Proof. apply musketeer_move_counts. Qed.

Lemma accepted_musketeer_move_captures_one_witness :
  Eff.result (isValidMusketeerMove 0 0 "r") cornerBoard = true
  /\ exists board',
       makeMove 0 0 "r" cornerBoard true = Some board'
       /\ countEnemies board' = countEnemies cornerBoard - 1
       /\ countMusketeers board' = countMusketeers cornerBoard.
Proof.
  assert (Hacc : Eff.result (isValidMusketeerMove 0 0 "r") cornerBoard = true)
    by reflexivity.
  split; [exact Hacc |].
  exact (accepted_musketeer_move_captures_one cornerBoard 0 0 "r" Hacc).
Defined.

(** The counts after a move the enemy validator accepts. *)
Lemma enemy_move_counts board row col direction :
  Eff.result (isValidEnemyMove row col direction) board = true ->
  exists board' newRow newCol,
    target row col direction = Some (newRow, newCol)
    /\ makeMove row col direction board false = Some board'
    /\ countMusketeers board' = countMusketeers board
    /\ (inBoard (newRow * N + newCol) -> countEnemies board' = countEnemies board)
    /\ (~ inBoard (newRow * N + newCol) ->
        countEnemies board' = countEnemies board - 1).
Proof.
  intros Hacc.
  destruct (isValidEnemyMove_accepted _ _ _ _ Hacc)
    as (newRow & newCol & Htarget & _).
  unfold inBoard.
  destruct (Z.le_gt_cases 0 (newRow * N + newCol)) as [Hlo | Hlo];
    [destruct (Z.lt_ge_cases (newRow * N + newCol) (N * N)) as [Hhi | Hhi] |].
  - destruct (enemy_move_counts_inside board row col direction newRow newCol
                Hacc Htarget (conj Hlo Hhi)) as (board' & Hmove & He & Hm).
    exists board', newRow, newCol. repeat split; auto. intros H. lia.
  - destruct (enemy_move_counts_outside board row col direction newRow newCol
                Hacc Htarget) as (board' & Hmove & He & Hm); [lia |].
    exists board', newRow, newCol. repeat split; auto; lia.
  - destruct (enemy_move_counts_outside board row col direction newRow newCol
                Hacc Htarget) as (board' & Hmove & He & Hm); [lia |].
    exists board', newRow, newCol. repeat split; auto; lia.
Qed.

(** X7.  A move the enemy validator accepts is applied by [makeMove] with as
    many Musketeers as before; the number of enemies on the grid is kept
    when the destination is a byte of the board, and drops by one when it is
    not (the validator tests no bound on the destination). *)
Theorem accepted_enemy_move_counts
  (board : memory) (row col : Z) (direction : ascii) :
  Eff.result (isValidEnemyMove row col direction) board = true ->
  exists board' newRow newCol,
    target row col direction = Some (newRow, newCol)
    /\ makeMove row col direction board false = Some board'
    /\ countMusketeers board' = countMusketeers board
    /\ (inBoard (newRow * N + newCol) -> countEnemies board' = countEnemies board)
    /\ (~ inBoard (newRow * N + newCol) ->
        countEnemies board' = countEnemies board - 1).
Proof. apply enemy_move_counts. Qed.

Lemma accepted_enemy_move_counts_witness :
  Eff.result (isValidEnemyMove 1 0 "r") cornerBoard = true
  /\ exists board' newRow newCol,
       target 1 0 "r" = Some (newRow, newCol)
       /\ makeMove 1 0 "r" cornerBoard false = Some board'
       /\ countMusketeers board' = countMusketeers cornerBoard
       /\ (inBoard (newRow * N + newCol) ->
           countEnemies board' = countEnemies cornerBoard)
       /\ (~ inBoard (newRow * N + newCol) ->
           countEnemies board' = countEnemies cornerBoard - 1).
Proof.
  assert (Hacc : Eff.result (isValidEnemyMove 1 0 "r") cornerBoard = true)
    by reflexivity.
  split; [exact Hacc |].
  exact (accepted_enemy_move_counts cornerBoard 1 0 "r" Hacc).
Defined.

(** ** The Musketeers can move as long as they have not won *)

Lemma zsum_nonzero_exists (l : list Z) :
  zsum l <> 0 -> exists x, In x l /\ x <> 0.
Proof.
  induction l as [| a l IH]; simpl; intros H; [contradiction |].
  destruct (Z.eq_dec a 0) as [-> | Ha].
  - destruct IH as (x & Hin & Hx); [lia |]. exists x. auto.
  - exists a. auto.
Qed.

Lemma adjacencies_nonzero board :
  adjacencies board <> 0 ->
  exists i k, inGrid i k /\ countAdjacent board i k 0 <> 0.
Proof.
  rewrite adjacencies_sum. intros H.
  apply zsum_nonzero_exists in H as (x & Hin & Hx).
  apply in_map_iff in Hin as (i & <- & Hi).
  apply zsum_nonzero_exists in Hx as (y & Hin & Hy).
  apply in_map_iff in Hin as (k & <- & Hk).
  exists i, k. split; [split; apply in_indices; assumption | exact Hy].
Qed.

(** X8.  [winMusketeers] returns 0 exactly when the Musketeer validator
    accepts some move: as long as the Musketeers have not won by this test,
    they have a capture to make. *)
Theorem winMusketeers_false_iff_capture_available (board : memory) :
  winMusketeers board = false
  <-> exists row col direction,
        Eff.result (isValidMusketeerMove row col direction) board = true.
Proof.
  split.
  - intros Hwin.
    assert (Hadj : adjacencies board <> 0).
    { intros H. apply winMusketeers_true_iff in H. congruence. }
    apply adjacencies_nonzero in Hadj as (i & k & Hin & Hcnt).
    destruct (Ascii.eqb_spec (cell board i k) "M") as [HM | HM];
      [| rewrite countAdjacent_other in Hcnt by exact HM; contradiction].
    rewrite countAdjacent_musketeer in Hcnt by exact HM.
    assert (Hmove : forall direction newRow newCol,
               target i k direction = Some (newRow, newCol) ->
               inGrid newRow newCol -> cell board newRow newCol = "o" ->
               exists row col direction,
                 Eff.result (isValidMusketeerMove row col direction) board = true).
    { intros direction newRow newCol Htarget Hdst Ho.
      exists i, k, direction. rewrite isValidMusketeerMove_result.
      apply (accepts_on_grid board i k direction newRow newCol Hin Htarget Hdst).
      auto. }
    destruct Hin as [Hi Hk]. unfold N in *.
    destruct ((k - 1 >=? 0) && Ascii.eqb (cell board i (k - 1)) "o") eqn:E1.
    { apply andb_true_iff in E1 as [Hb Ho].
      apply Z.geb_le in Hb. apply eqb_true_iff in Ho.
      apply (Hmove "l" i (k - 1)); [reflexivity | unfold inGrid, N; lia | exact Ho]. }
    destruct ((k + 1 <? 5) && Ascii.eqb (cell board i (k + 1)) "o") eqn:E2.
    { apply andb_true_iff in E2 as [Hb Ho].
      apply Z.ltb_lt in Hb. apply eqb_true_iff in Ho.
      apply (Hmove "r" i (k + 1)); [reflexivity | unfold inGrid, N; lia | exact Ho]. }
    destruct ((i - 1 >=? 0) && Ascii.eqb (cell board (i - 1) k) "o") eqn:E3.
    { apply andb_true_iff in E3 as [Hb Ho].
      apply Z.geb_le in Hb. apply eqb_true_iff in Ho.
      apply (Hmove "u" (i - 1) k); [reflexivity | unfold inGrid, N; lia | exact Ho]. }
    destruct ((i + 1 <? 5) && Ascii.eqb (cell board (i + 1) k) "o") eqn:E4.
    { apply andb_true_iff in E4 as [Hb Ho].
      apply Z.ltb_lt in Hb. apply eqb_true_iff in Ho.
      apply (Hmove "d" (i + 1) k); [reflexivity | unfold inGrid, N; lia | exact Ho]. }
    exfalso. apply Hcnt. reflexivity.
  - intros (row & col & direction & Hacc).
    apply isValidMusketeerMove_accepted in Hacc
      as (newRow & newCol & Htarget & Hsrc & Hdst & HM & Ho).
    apply not_true_is_false. intros Hwin.
    apply winMusketeers_true_iff in Hwin.
    pose proof (proj1 (adjacencies_zero_iff board) Hwin row col Hsrc) as Hzero.
    apply (countAdjacent_zero_iff board row col Hsrc) in Hzero; [| exact HM].
    apply Hzero. exists newRow, newCol.
    split; [exact Hdst |]. split; [| exact Ho].
    apply target_adjacent with direction. exact Htarget.
Qed.

(** ** One pass of the loop, whatever the text *)

Lemma sameText_true (a b : list ascii) : sameText a b = true -> a = b.
Proof.
  unfold sameText. destruct (list_eq_dec ascii_dec a b); [auto | discriminate].
Qed.

(** The three ways a pass can go. *)
Lemma playTurn_cases opens g playerMove :
  (fst (playTurn opens g playerMove) = Interrupted
   /\ (playerMove = interruptUpper \/ playerMove = interruptLower)
   /\ snd (playTurn opens g playerMove)
      = [prompt g; Say MsgInterrupted; Saved (writeBoard (board g) opens)])
  \/ (fst (playTurn opens g playerMove) = Continue g
      /\ (scanMove playerMove = None
          /\ snd (playTurn opens g playerMove) = [prompt g; Say MsgInvalidFormat]
          \/ exists direction,
               scanMove playerMove = Some direction
               /\ Eff.result (validator (musketeersTurn g) (moveRow playerMove)
                                (moveCol playerMove) direction) (board g) = false
               /\ snd (playTurn opens g playerMove)
                  = prompt g
                    :: Eff.trace (validator (musketeersTurn g) (moveRow playerMove)
                                    (moveCol playerMove) direction) (board g)))
  \/ (exists direction board',
        scanMove playerMove = Some direction
        /\ Eff.result (validator (musketeersTurn g) (moveRow playerMove)
                         (moveCol playerMove) direction) (board g) = true
        /\ makeMove (moveRow playerMove) (moveCol playerMove) direction
             (board g) (musketeersTurn g) = Some board'
        /\ fst (playTurn opens g playerMove)
           = Continue (Game board' (negb (musketeersTurn g)))
        /\ snd (playTurn opens g playerMove)
           = prompt g
             :: Eff.trace (validator (musketeersTurn g) (moveRow playerMove)
                             (moveCol playerMove) direction) (board g)
             ++ [Say (display_board board')]).
Proof.
  destruct (sameText playerMove interruptUpper || sameText playerMove interruptLower)
    eqn:Hquit.
  - left. unfold playTurn. rewrite Hquit. split; [reflexivity |].
    split; [| reflexivity].
    apply orb_true_iff in Hquit as [H | H]; apply sameText_true in H; auto.
  - right. destruct (scanMove playerMove) as [direction |] eqn:Hscan.
    + rewrite (playTurn_parsed opens g playerMove direction Hquit Hscan). cbv zeta.
      destruct (Eff.result (validator (musketeersTurn g) (moveRow playerMove)
                              (moveCol playerMove) direction) (board g)) eqn:Hres.
      * right. exists direction.
        destruct (validator_accepted_target _ _ _ _ _ Hres)
          as (newRow & newCol & Htarget).
        unfold makeMove. rewrite Htarget. eexists.
        split; [reflexivity |]. split; [exact Hres |].
        split; [reflexivity |]. split; reflexivity.
      * left. split; [reflexivity |]. right. exists direction.
        split; [reflexivity |]. split; [exact Hres | reflexivity].
    + left. unfold playTurn. rewrite Hquit, Hscan.
      split; [reflexivity |]. left. split; reflexivity.
Qed.

(** [makeMove] is never reached with a direction it does not know. *)
Lemma playTurn_defined opens g playerMove :
  fst (playTurn opens g playerMove) <> Undefined.
Proof.
  destruct (playTurn_cases opens g playerMove)
    as [(H & _) | [(H & _) | (d & b & _ & _ & _ & H & _)]];
    rewrite H; discriminate.
Qed.

(** X9.  Whatever the text in the buffer, one pass of the loop ends in one
    of three ways: on the interrupt command, and on no other text, the loop
    is left; otherwise the game is exactly as before, or else the text
    parsed, the validator of the side to move accepted the move, the board
    is the one [makeMove] gives and the turn passes.  [makeMove] is never
    reached with a direction it does not know. *)
Theorem playTurn_outcomes (opens : bool) (g : game) (playerMove : list ascii) :
  match fst (playTurn opens g playerMove) with
  | Interrupted => playerMove = interruptUpper \/ playerMove = interruptLower
  | Continue g' =>
      playerMove <> interruptUpper /\ playerMove <> interruptLower
      /\ (g' = g
          \/ exists direction board',
               scanMove playerMove = Some direction
               /\ Eff.result (validator (musketeersTurn g) (moveRow playerMove)
                                (moveCol playerMove) direction) (board g) = true
               /\ makeMove (moveRow playerMove) (moveCol playerMove) direction
                    (board g) (musketeersTurn g) = Some board'
               /\ g' = Game board' (negb (musketeersTurn g)))
  | Undefined => False
  end.
Proof.
  assert (Hnot : fst (playTurn opens g playerMove) <> Interrupted ->
                 playerMove <> interruptUpper /\ playerMove <> interruptLower).
  { intros Hfst. split; intros ->; apply Hfst; reflexivity. }
  destruct (playTurn_cases opens g playerMove)
    as [(Hfst & Htext & _) | [(Hfst & _) | (direction & board' & Hscan & Hres & Hmove & Hfst & _)]];
    rewrite Hfst in *.
  - exact Htext.
  - destruct Hnot as [H1 H2]; [discriminate |]. auto.
  - destruct Hnot as [H1 H2]; [discriminate |].
    split; [exact H1 |]. split; [exact H2 |]. right. exists direction, board'. auto.
Qed.

(** ** What the whole loop keeps *)

Lemma validBoard_store board row col v :
  validBoard board -> isSymbol v = true -> validBoard (store board row col v).
Proof.
  intros Hvalid Hv i k Hin. unfold cell, store.
  destruct (Z.eqb_spec (i * N + k) (row * N + col)); [exact Hv |].
  apply Hvalid, Hin.
Qed.

Lemma makeMove_validBoard row col direction board mTurn board' :
  makeMove row col direction board mTurn = Some board' ->
  validBoard board -> validBoard board'.
Proof.
  unfold makeMove.
  destruct (target row col direction) as [[newRow newCol] |]; [| discriminate].
  intros [= <-] Hvalid.
  apply validBoard_store; [apply validBoard_store; [exact Hvalid | reflexivity] |].
  destruct mTurn; reflexivity.
Qed.

(** One pass keeps the Musketeers, adds no enemy, and leaves cell symbols in
    the cells. *)
Lemma playTurn_keeps opens g playerMove g' :
  fst (playTurn opens g playerMove) = Continue g' ->
  countMusketeers (board g') = countMusketeers (board g)
  /\ countEnemies (board g') <= countEnemies (board g)
  /\ (validBoard (board g) -> validBoard (board g')).
Proof.
  intros Hfst.
  destruct (playTurn_cases opens g playerMove)
    as [(H & _) | [(H & _) | (direction & board' & _ & Hres & Hmove & H & _)]];
    rewrite H in Hfst.
  - discriminate Hfst.
  - injection Hfst as <-. split; [reflexivity |]. split; [lia | auto].
  - injection Hfst as <-. simpl.
    split; [| split; [| apply (makeMove_validBoard _ _ _ _ _ _ Hmove)]].
    + destruct (musketeersTurn g); simpl in Hres.
      * apply musketeer_move_counts in Hres as (b & Hb & _ & Hm). congruence.
      * apply enemy_move_counts in Hres as (b & nr & nc & _ & Hb & Hm & _).
        congruence.
    + destruct (musketeersTurn g); simpl in Hres.
      * apply musketeer_move_counts in Hres as (b & Hb & He & _).
        assert (b = board') by congruence. subst b. lia.
      * apply enemy_move_counts in Hres as (b & nr & nc & _ & Hb & _ & Hin & Hout).
        assert (b = board') by congruence. subst b. unfold inBoard in *.
        destruct (Z.le_gt_cases 0 (nr * N + nc));
          [destruct (Z.lt_ge_cases (nr * N + nc) (N * N)) |];
          [rewrite Hin by lia | rewrite Hout by lia | rewrite Hout by lia]; lia.
Qed.

Lemma announce_game opens g :
  snd (fst (announce opens g)) = g.
Proof.
  unfold announce.
  destruct (winMusketeers (board g)); [reflexivity |].
  destruct (winEnemies (board g)); reflexivity.
Qed.

Lemma play_keeps opens inputs :
  forall g,
    let '(e, g', tr) := play opens inputs g in
    countMusketeers (board g') = countMusketeers (board g)
    /\ countEnemies (board g') <= countEnemies (board g)
    /\ (validBoard (board g) -> validBoard (board g')).
Proof.
  assert (Hsame : forall g : game,
             countMusketeers (board g) = countMusketeers (board g)
             /\ countEnemies (board g) <= countEnemies (board g)
             /\ (validBoard (board g) -> validBoard (board g)))
    by (intros; split; [reflexivity | split; [lia | auto]]).
  assert (Hannounce : forall g,
             let '(e, g', tr) := announce opens g in
             countMusketeers (board g') = countMusketeers (board g)
             /\ countEnemies (board g') <= countEnemies (board g)
             /\ (validBoard (board g) -> validBoard (board g'))).
  { intros g. pose proof (announce_game opens g) as H.
    destruct (announce opens g) as [[e g'] tr]. simpl in H. subst g'. apply Hsame. }
  induction inputs as [| playerMove inputs IH]; intros g; cbn [play].
  - destruct (winGame (board g)); [apply Hannounce | apply Hsame].
  - destruct (winGame (board g)); [apply Hannounce |].
    destruct (playTurn opens g playerMove) as [[g1 | |] tr] eqn:Hturn.
    + specialize (IH g1).
      destruct (play opens inputs g1) as [[e g''] tr'].
      destruct (playTurn_keeps opens g playerMove g1) as (Hm & He & Hv);
        [rewrite Hturn; reflexivity |].
      destruct IH as (Hm' & He' & Hv').
      split; [congruence |]. split; [lia | auto].
    + specialize (Hannounce g).
      destruct (announce opens g) as [[e g'] tr']. exact Hannounce.
    + apply Hsame.
Qed.

(** X10.  Through the whole of [play], whatever the texts typed, the number
    of Musketeers on the grid never changes and the number of enemies on the
    grid never grows. *)
Theorem play_keeps_musketeers_and_adds_no_enemy
  (opens : bool) (inputs : list (list ascii)) (g : game) :
  let '(e, g', tr) := play opens inputs g in
  countMusketeers (board g') = countMusketeers (board g)
  /\ countEnemies (board g') <= countEnemies (board g).
Proof.
  pose proof (play_keeps opens inputs g) as H.
  destruct (play opens inputs g) as [[e g'] tr]. tauto.
Qed.

(** X11.  Every board that [play] reaches from a board of cell symbols is a
    board of cell symbols again, so that saving it with [writeBoard] and
    loading the file with [readBoard] gives back its twenty-five cells. *)
Theorem play_reaches_boards_that_reload
  (opens : bool) (inputs : list (list ascii)) (g : game) (start : memory) :
  validBoard (board g) ->
  let '(e, g', tr) := play opens inputs g in
  validBoard (board g')
  /\ exists board',
       readBoard start (snd (writeBoard (board g') true)) = (true, board')
       /\ forall row col,
            inGrid row col -> cell board' row col = cell (board g') row col.
Proof.
  intros Hvalid.
  pose proof (play_keeps opens inputs g) as H.
  destruct (play opens inputs g) as [[e g'] tr].
  destruct H as (_ & _ & Hv). specialize (Hv Hvalid).
  split; [exact Hv |]. exact (readBoard_boardText (board g') start Hv).
Qed.

Lemma play_reaches_boards_that_reload_witness :
  validBoard (board (Game cornerBoard true))
  /\ let '(e, g', tr) := play true [captureRight; moveUp] (Game cornerBoard true) in
     validBoard (board g')
     /\ exists board',
          readBoard blank (snd (writeBoard (board g') true)) = (true, board')
          /\ forall row col,
               inGrid row col -> cell board' row col = cell (board g') row col.
Proof.
  split; [exact validBoard_cornerBoard |].
  exact (play_reaches_boards_that_reload true [captureRight; moveUp]
           (Game cornerBoard true) blank validBoard_cornerBoard).
Defined.

(** ** How [play] ends *)

Lemma winGame_false board :
  winGame board = false -> winMusketeers board = false /\ winEnemies board = false.
Proof.
  unfold winGame.
  destruct (winMusketeers board), (winEnemies board); simpl; intros H;
    try discriminate H; auto.
Qed.

(** The statements after the loop, by what the two tests say. *)
Lemma announce_cases opens g :
  (winMusketeers (board g) = true
   /\ announce opens g
      = (MusketeersWon, g,
         [Say MsgMusketeersWin; Saved (writeBoard (board g) opens)]))
  \/ (winMusketeers (board g) = false /\ winEnemies (board g) = true
      /\ announce opens g
         = (EnemiesWon, g,
            [Say MsgEnemiesWin; Saved (writeBoard (board g) opens)]))
  \/ (winGame (board g) = false /\ announce opens g = (NoWinner, g, [])).
Proof.
  unfold announce, winGame, gameInterrupt.
  destruct (winMusketeers (board g)); [left; auto |].
  destruct (winEnemies (board g)); [right; left; auto | right; right; auto].
Qed.

Lemma validator_saves mTurn row col direction board :
  saves (Eff.trace (validator mTurn row col direction) board) = [].
Proof.
  rewrite validator_trace, isValidMove_trace. unfold saves.
  rewrite !filter_app.
  destruct (inGridb row col); [destruct (_ || _) |];
    destruct (validSource row col direction);
    destruct (Ascii.eqb (cell board row col) (mover mTurn));
    destruct (Eff.result _ board); reflexivity.
Qed.

Lemma playTurn_saves opens g playerMove :
  saves (snd (playTurn opens g playerMove))
  = match fst (playTurn opens g playerMove) with
    | Interrupted => [Saved (writeBoard (board g) opens)]
    | _ => []
    end.
Proof.
  destruct (playTurn_cases opens g playerMove)
    as [(H & _ & Htr) | [(H & [(_ & Htr) | (d & _ & _ & Htr)])
       | (d & board' & _ & _ & _ & H & Htr)]];
    rewrite H, Htr; try reflexivity.
  - change (saves (prompt g :: ?tr)) with (saves tr). apply validator_saves.
  - change (saves (prompt g :: ?tr)) with (saves tr).
    unfold saves. rewrite filter_app. fold (saves (Eff.trace
      (validator (musketeersTurn g) (moveRow playerMove) (moveCol playerMove) d)
      (board g))).
    rewrite validator_saves. reflexivity.
Qed.

Lemma play_ends opens inputs :
  forall g,
    let '(e, g', tr) := play opens inputs g in
    match e with
    | MusketeersWon => winMusketeers (board g') = true
    | EnemiesWon => winMusketeers (board g') = false /\ winEnemies (board g') = true
    | NoWinner | AwaitingInput => winGame (board g') = false
    | Crashed => False
    end
    /\ saves tr
       = match e with
         | MusketeersWon | EnemiesWon | NoWinner =>
             [Saved (writeBoard (board g') opens)]
         | AwaitingInput | Crashed => []
         end.
Proof.
  induction inputs as [| playerMove inputs IH]; intros g; cbn [play].
  - destruct (winGame (board g)) eqn:Hwin; [| auto].
    destruct (announce_cases opens g) as [(Hm & ->) | [(Hm & He & ->) | (Hno & _)]];
      [auto | auto | congruence].
  - destruct (winGame (board g)) eqn:Hwin.
    { destruct (announce_cases opens g) as [(Hm & ->) | [(Hm & He & ->) | (Hno & _)]];
        [auto | auto | congruence]. }
    pose proof (playTurn_saves opens g playerMove) as Hsaves.
    pose proof (playTurn_defined opens g playerMove) as Hnever.
    destruct (playTurn opens g playerMove) as [[g1 | |] tr] eqn:Hturn;
      simpl in Hsaves, Hnever.
    + specialize (IH g1).
      destruct (play opens inputs g1) as [[e g''] tr'].
      destruct IH as [Hend Hs]. split; [exact Hend |].
      unfold saves in *. rewrite filter_app, Hsaves. exact Hs.
    + destruct (announce_cases opens g) as [(Hm & _) | [(_ & He & _) | (_ & ->)]].
      * apply winGame_false in Hwin as [H _]. congruence.
      * apply winGame_false in Hwin as [_ H]. congruence.
      * split; [exact Hwin |].
        unfold saves in *. rewrite filter_app, Hsaves. reflexivity.
    + contradiction.
Qed.

(** X12.  [play] ends with "The Musketeers win!" only on a board where
    [winMusketeers] holds, with the Cardinal's message only on a board where
    [winEnemies] holds and [winMusketeers] does not, and without a winner
    (after the interrupt command, or with the input used up) only on a board
    where neither holds; it never runs into [makeMove]'s unassigned
    subscripts.  When [winMusketeers] holds on the board [play] is given, the
    Musketeers are declared winners at once, whatever [winEnemies] says and
    with no text read. *)
Theorem play_ending_sound (opens : bool) (inputs : list (list ascii)) (g : game) :
  (let '(e, g', tr) := play opens inputs g in
   match e with
   | MusketeersWon => winMusketeers (board g') = true
   | EnemiesWon => winMusketeers (board g') = false /\ winEnemies (board g') = true
   | NoWinner | AwaitingInput => winGame (board g') = false
   | Crashed => False
   end)
  /\ (winMusketeers (board g) = true ->
      play opens inputs g
      = (MusketeersWon, g,
         [Say MsgMusketeersWin; Saved (writeBoard (board g) opens)])).
Proof.
  split.
  - pose proof (play_ends opens inputs g) as H.
    destruct (play opens inputs g) as [[e g'] tr]. tauto.
  - intros Hm.
    assert (Hwin : winGame (board g) = true)
      by (unfold winGame; rewrite Hm; reflexivity).
    destruct (announce_cases opens g) as [(_ & Ha) | [(H & _) | (H & _)]];
      [| congruence | congruence].
    destruct inputs; cbn [play]; rewrite Hwin; exact Ha.
Qed.

(** X13.  Whenever [play] ends with a winner or on the interrupt command,
    the board is saved exactly once, and it is the final board that is
    saved; when the texts run out before that, nothing is saved. *)
Theorem play_saves_final_board_once
  (opens : bool) (inputs : list (list ascii)) (g : game) :
  let '(e, g', tr) := play opens inputs g in
  saves tr
  = match e with
    | MusketeersWon | EnemiesWon | NoWinner => [Saved (writeBoard (board g') opens)]
    | AwaitingInput | Crashed => []
    end.
Proof.
  pose proof (play_ends opens inputs g) as H.
  destruct (play opens inputs g) as [[e g'] tr]. tauto.
Qed.

(** X14.  On the interrupt command, in either case of the letter, [play]
    stops without a winner: the board is saved as it is, no move is looked
    at, and the texts that follow are not read.  When the cells hold cell
    symbols, loading the file saved gives the same twenty-five cells. *)
Theorem play_interrupt_saves_and_stops
  (opens : bool) (inputs : list (list ascii)) (g : game) (start : memory) :
  winGame (board g) = false ->
  play opens (interruptUpper :: inputs) g
  = (NoWinner, g, [prompt g; Say MsgInterrupted; Saved (writeBoard (board g) opens)])
  /\ play opens (interruptLower :: inputs) g
     = (NoWinner, g, [prompt g; Say MsgInterrupted; Saved (writeBoard (board g) opens)])
  /\ (validBoard (board g) ->
      exists board',
        readBoard start (snd (writeBoard (board g) true)) = (true, board')
        /\ forall row col,
             inGrid row col -> cell board' row col = cell (board g) row col).
Proof.
  intros Hwin.
  destruct (announce_cases opens g) as [(Hm & _) | [(_ & He & _) | (_ & Ha)]].
  { apply winGame_false in Hwin as [H _]. congruence. }
  { apply winGame_false in Hwin as [_ H]. congruence. }
  split; [| split].
  - cbn [play]. rewrite Hwin.
    change (playTurn opens g interruptUpper)
      with (Interrupted,
            [prompt g; Say MsgInterrupted; Saved (writeBoard (board g) opens)]).
    rewrite Ha. reflexivity.
  - cbn [play]. rewrite Hwin.
    change (playTurn opens g interruptLower)
      with (Interrupted,
            [prompt g; Say MsgInterrupted; Saved (writeBoard (board g) opens)]).
    rewrite Ha. reflexivity.
  - intros Hvalid. exact (readBoard_boardText (board g) start Hvalid).
Qed.

Lemma play_interrupt_saves_and_stops_witness :
  winGame (board (Game cornerBoard false)) = false
  /\ play true (interruptUpper :: [captureRight]) (Game cornerBoard false)
     = (NoWinner, Game cornerBoard false,
        [prompt (Game cornerBoard false); Say MsgInterrupted;
         Saved (writeBoard cornerBoard true)])
  /\ play true (interruptLower :: [captureRight]) (Game cornerBoard false)
     = (NoWinner, Game cornerBoard false,
        [prompt (Game cornerBoard false); Say MsgInterrupted;
         Saved (writeBoard cornerBoard true)])
  /\ (validBoard cornerBoard ->
      exists board',
        readBoard blank (snd (writeBoard cornerBoard true)) = (true, board')
        /\ forall row col,
             inGrid row col -> cell board' row col = cell cornerBoard row col).
Proof.
  assert (Hwin : winGame (board (Game cornerBoard false)) = false) by reflexivity.
  split; [exact Hwin |].
  exact (play_interrupt_saves_and_stops true [captureRight]
           (Game cornerBoard false) blank Hwin).
Defined.

(** ** From the text to the source position *)

Lemma row_letter (c : ascii) :
  (0 <=? tolower (code c) - code "a") && (tolower (code c) - code "a" <? N)
  = existsb (Ascii.eqb c) rowLetters.
Proof. destruct c as [[] [] [] [] [] [] [] []]; reflexivity. Qed.

Lemma col_digit (c : ascii) :
  (0 <=? code c - code "1") && (code c - code "1" <? N)
  = existsb (Ascii.eqb c) colDigits.
Proof. destruct c as [[] [] [] [] [] [] [] []]; reflexivity. Qed.

Lemma existsb_eqb_In (c : ascii) (l : list ascii) :
  existsb (Ascii.eqb c) l = true <-> In c l.
Proof.
  rewrite existsb_exists. split.
  - intros (x & Hin & E). apply eqb_true_iff in E. congruence.
  - intros Hin. exists c. split; [exact Hin | apply Ascii.eqb_refl].
Qed.

(** X15.  The source position computed from the text is on the grid exactly
    when the first character of the buffer is one of the letters a to e, in
    either case, and its third character is one of the digits 1 to 5. *)
Theorem move_source_on_grid_iff (playerMove : list ascii) :
  inGrid (moveRow playerMove) (moveCol playerMove)
  <-> In (charAt playerMove 0) rowLetters /\ In (charAt playerMove 2) colDigits.
Proof.
  rewrite <- !existsb_eqb_In, <- row_letter, <- col_digit.
  unfold inGrid, moveRow, moveCol.
  rewrite !andb_true_iff, !Z.leb_le, !Z.ltb_lt. reflexivity.
Qed.

Lemma space_off_grid (c : ascii) :
  isspace c = true -> tolower (code c) - code "a" < 0.
Proof.
  destruct c as [[] [] [] [] [] [] [] []]; intros H;
    first [discriminate H | reflexivity].
Qed.

(** A move a validator accepts has its source on the grid. *)
Lemma validator_accepted_source mTurn board row col direction :
  Eff.result (validator mTurn row col direction) board = true -> inGrid row col.
Proof.
  destruct mTurn; simpl; intros Hacc.
  - apply isValidMusketeerMove_accepted in Hacc as (nr & nc & _ & H & _). exact H.
  - apply isValidEnemyMove_accepted in Hacc as (nr & nc & _ & H & _). exact H.
Qed.

(** X16.  A text that begins with white space never moves a piece, even
    when it parses: [sscanf] skips the white space, but the row is computed
    from the first character of the buffer. *)
Theorem playTurn_leading_space_moves_nothing
  (opens : bool) (g : game) (playerMove : list ascii) :
  isspace (charAt playerMove 0) = true ->
  fst (playTurn opens g playerMove) = Continue g.
Proof.
  intros Hspace.
  destruct (playTurn_cases opens g playerMove)
    as [(_ & [-> | ->] & _) | [(H & _) | (d & b & _ & Hres & _)]].
  - discriminate Hspace.
  - discriminate Hspace.
  - exact H.
  - apply validator_accepted_source in Hres as [Hrow _].
    apply space_off_grid in Hspace. unfold moveRow in Hrow. lia.
Qed.

Lemma playTurn_leading_space_moves_nothing_witness :
  isspace (charAt blankFirst 0) = true
  /\ scanMove blankFirst = Some "r"
  /\ fst (playTurn true (Game cornerBoard true) blankFirst)
     = Continue (Game cornerBoard true).
Proof.
  assert (Hspace : isspace (charAt blankFirst 0) = true) by reflexivity.
  split; [exact Hspace |]. split; [reflexivity |].
  exact (playTurn_leading_space_moves_nothing true (Game cornerBoard true)
           blankFirst Hspace).
Defined.

(** ** What [readBoard] makes of a file *)

Lemma readCell_unblank (chars : list ascii) :
  readCell (unblank chars)
  = match readCell chars with
    | Some (c, rest) => Some (c, unblank rest)
    | None => None
    end.
Proof.
  induction chars as [| ch chars IH]; [reflexivity |].
  unfold unblank, isBlank in *. simpl.
  destruct (Ascii.eqb ch "010") eqn:En, (Ascii.eqb ch " ") eqn:Es; simpl;
    rewrite ?En, ?Es, ?andb_false_r; simpl; try exact IH.
  destruct (negb (Ascii.eqb ch "o") && negb (Ascii.eqb ch "M")), (Ascii.eqb ch ".");
    reflexivity.
Qed.

Lemma readCells_unblank (todo : list (Z * Z)) :
  forall chars start,
    readCells todo (unblank chars) start = readCells todo chars start.
Proof.
  induction todo as [| [i k] todo IH]; intros chars start; [reflexivity |].
  simpl. rewrite readCell_unblank.
  destruct (readCell chars) as [[c rest] |]; [apply IH | reflexivity].
Qed.

(** X17.  [readBoard] looks at the characters of the file other than spaces
    and newlines only: a file and the same file without its spaces and
    newlines give the same result and the same board, however the cells are
    laid out in lines. *)
Theorem readBoard_ignores_layout (start : memory) (chars : list ascii) :
  readBoard start (Some chars) = readBoard start (Some (unblank chars)).
Proof. unfold readBoard. symmetry. apply readCells_unblank. Qed.

Lemma unblank_nonblank (chars : list ascii) :
  Forall (fun c => isBlank c = false) (unblank chars).
Proof.
  apply Forall_forall. intros c Hin. unfold unblank in Hin.
  apply filter_In in Hin as [_ H]. apply negb_true_iff in H. exact H.
Qed.

Lemma readCell_nonblank (c : ascii) (rest : list ascii) :
  isBlank c = false ->
  readCell (c :: rest) = if isSymbol c then Some (c, rest) else None.
Proof.
  unfold isBlank, isSymbol. simpl.
  destruct (Ascii.eqb c "010"), (Ascii.eqb c " "); simpl; try discriminate.
  intros _.
  destruct (Ascii.eqb c "o"), (Ascii.eqb c "M"), (Ascii.eqb c "."); reflexivity.
Qed.

Lemma readCells_accepts (todo : list (Z * Z)) :
  forall l start,
    Forall (fun c => isBlank c = false) l ->
    fst (readCells todo l start) = true
    <-> (List.length todo <= List.length l)%nat
        /\ forallb isSymbol (firstn (List.length todo) l) = true.
Proof.
  induction todo as [| [i k] todo IH]; intros l start Hnb.
  - simpl. split; [intros _; split; [lia | reflexivity] | reflexivity].
  - destruct l as [| c rest].
    + simpl. split; [discriminate | intros [H _]; lia].
    + inversion Hnb as [| x xs Hc Hrest]; subst.
      cbn [readCells]. rewrite (readCell_nonblank c rest Hc).
      cbn [List.length firstn forallb].
      destruct (isSymbol c); simpl.
      * rewrite (IH rest (store start i k c) Hrest). split; intros [H1 H2];
          (split; [lia | exact H2]).
      * split; [discriminate | intros [_ H]; discriminate H].
Qed.

(** X18.  [readBoard] returns 1 exactly when the file, its spaces and
    newlines left out, holds at least twenty-five characters of which the
    first twenty-five are cell symbols.  An empty or short file is refused,
    and so is one with another character before the twenty-fifth cell;
    whatever follows the twenty-fifth cell is not looked at. *)
Theorem readBoard_accepts_iff (start : memory) (chars : list ascii) :
  fst (readBoard start (Some chars)) = true
  <-> (25 <= List.length (unblank chars))%nat
      /\ forallb isSymbol (firstn 25 (unblank chars)) = true.
Proof.
  unfold readBoard. fold positions.
  rewrite <- readCells_unblank.
  apply (readCells_accepts positions (unblank chars) start), unblank_nonblank.
Qed.

Lemma readCells_frame (todo : list (Z * Z)) :
  forall chars start off,
    ~ In off (map offset todo) ->
    snd (readCells todo chars start) off = start off.
Proof.
  induction todo as [| [i k] todo IH]; intros chars start off Hoff; [reflexivity |].
  simpl in *. destruct (readCell chars) as [[ch rest] |]; [| reflexivity].
  rewrite IH by tauto. unfold store, offset in *. simpl in Hoff.
  destruct (Z.eqb_spec off (i * N + k)); [| reflexivity].
  exfalso. apply Hoff. left. congruence.
Qed.

Lemma positions_offsets_inBoard (off : Z) :
  In off (map offset positions) -> inBoard off.
Proof.
  intros Hin. apply in_map_iff in Hin as ([i k] & <- & Hin).
  apply in_positions in Hin. unfold offset, inBoard, inGrid, N in *. simpl. lia.
Qed.

(** X19.  [readBoard] writes to the twenty-five bytes of the board and to no
    other, whether it succeeds or fails; when the file cannot be opened it
    returns 0 and writes nothing. *)
Theorem readBoard_writes_board_only
  (start : memory) (file : option (list ascii)) (off : Z) :
  ~ inBoard off ->
  snd (readBoard start file) off = start off
  /\ readBoard start None = (false, start).
Proof.
  intros Hoff. split; [| reflexivity].
  destruct file as [chars |]; [| reflexivity].
  unfold readBoard. fold positions. apply readCells_frame.
  intros Hin. apply Hoff, positions_offsets_inBoard, Hin.
Qed.

Lemma readBoard_writes_board_only_witness :
  ~ inBoard 25
  /\ snd (readBoard blank (Some enemiesOnlyFile)) 25 = blank 25
  /\ readBoard blank None = (false, blank).
Proof.
  assert (Hoff : ~ inBoard 25) by (unfold inBoard, N; lia).
  split; [exact Hoff |].
  exact (readBoard_writes_board_only blank (Some enemiesOnlyFile) 25 Hoff).
Defined.

Lemma readCells_values (todo : list (Z * Z)) :
  NoDup (map offset todo) ->
  forall l start board',
    Forall (fun c => isBlank c = false) l ->
    readCells todo l start = (true, board') ->
    forall n, (n < List.length todo)%nat ->
      board' (offset (nth n todo (0, 0))) = nth n l "000".
Proof.
  induction todo as [| [i k] todo IH]; intros Hnodup l start board' Hnb Hread n Hn;
    [simpl in Hn; lia |].
  inversion Hnodup as [| x xs Hnotin Hnodup']; subst.
  destruct l as [| c rest]; [discriminate Hread |].
  inversion Hnb as [| x xs Hc Hrest]; subst.
  cbn [readCells] in Hread. rewrite (readCell_nonblank c rest Hc) in Hread.
  destruct (isSymbol c); [| discriminate Hread].
  destruct n as [| n]; simpl.
  - pose proof (readCells_frame todo rest (store start i k c) (offset (i, k)) Hnotin)
      as Hframe.
    rewrite Hread in Hframe. simpl in Hframe. rewrite Hframe.
    unfold store, offset. simpl. rewrite Z.eqb_refl. reflexivity.
  - apply (IH Hnodup' rest (store start i k c) board' Hrest Hread).
    simpl in Hn. lia.
Qed.

Lemma nth_positions (i k : Z) :
  inGrid i k -> nth (Z.to_nat (i * N + k)) positions (0, 0) = (i, k).
Proof.
  intros [Hi Hk]. five i Hi; five k Hk; reflexivity.
Qed.

(** X20.  When [readBoard] succeeds, the cell in row [i] and column [k] is
    the character number [5 i + k], counting from 0, of the file without
    its spaces and newlines: the cells are filled row by row. *)
Theorem readBoard_fills_row_by_row
  (start : memory) (chars : list ascii) (i k : Z) :
  fst (readBoard start (Some chars)) = true ->
  inGrid i k ->
  cell (snd (readBoard start (Some chars))) i k
  = nth (Z.to_nat (i * N + k)) (unblank chars) "000".
Proof.
  intros Hread Hin.
  unfold readBoard in *. fold positions in *.
  rewrite <- readCells_unblank in *.
  destruct (readCells positions (unblank chars) start) as [ok board'] eqn:E.
  simpl in *. subst ok.
  pose proof (readCells_values positions positions_offsets_NoDup (unblank chars)
                start board' (unblank_nonblank chars) E
                (Z.to_nat (i * N + k))) as Hval.
  rewrite (nth_positions i k Hin) in Hval. unfold cell.
  apply Hval. change (List.length positions) with 25%nat.
  destruct Hin as [Hi Hk]. unfold N in *. lia.
Qed.

Lemma readBoard_fills_row_by_row_witness :
  fst (readBoard blank (Some fileWithTail)) = true
  /\ inGrid 3 4
  /\ cell (snd (readBoard blank (Some fileWithTail))) 3 4
     = nth (Z.to_nat (3 * N + 4)) (unblank fileWithTail) "000".
Proof.
  assert (Hread : fst (readBoard blank (Some fileWithTail)) = true) by reflexivity.
  assert (Hin : inGrid 3 4) by (unfold inGrid, N; lia).
  split; [exact Hread |]. split; [exact Hin |].
  exact (readBoard_fills_row_by_row blank fileWithTail 3 4 Hread Hin).
Defined.

(** ** [main] reads the board twice *)

Lemma readCells_fst (todo : list (Z * Z)) :
  forall chars start1 start2,
    fst (readCells todo chars start1) = fst (readCells todo chars start2).
Proof.
  induction todo as [| [i k] todo IH]; intros chars start1 start2; [reflexivity |].
  simpl. destruct (readCell chars) as [[ch rest] |]; [apply IH | reflexivity].
Qed.

Lemma readCells_ext (todo : list (Z * Z)) :
  forall chars start1 start2,
    (forall off, start1 off = start2 off) ->
    forall off,
      snd (readCells todo chars start1) off = snd (readCells todo chars start2) off.
Proof.
  induction todo as [| [i k] todo IH]; intros chars start1 start2 Hsame;
    [exact Hsame |].
  simpl. destruct (readCell chars) as [[ch rest] |]; [| exact Hsame].
  apply IH. intros off. unfold store. rewrite Hsame. reflexivity.
Qed.

(** Reading the same text a second time changes no byte. *)
Lemma readCells_twice (todo : list (Z * Z)) :
  NoDup (map offset todo) ->
  forall chars start off,
    snd (readCells todo chars (snd (readCells todo chars start))) off
    = snd (readCells todo chars start) off.
Proof.
  induction todo as [| [i k] todo IH]; intros Hnodup chars start off; [reflexivity |].
  inversion Hnodup as [| x xs Hnotin Hnodup']; subst.
  cbn [readCells]. destruct (readCell chars) as [[ch rest] |].
  - set (board' := snd (readCells todo rest (store start i k ch))).
    rewrite (readCells_ext todo rest (store board' i k ch) board').
    + apply IH, Hnodup'.
    + intros off'. unfold store.
      destruct (Z.eqb_spec off' (i * N + k)) as [-> |]; [| reflexivity].
      unfold board'. change (i * N + k) with (offset (i, k)).
      rewrite (readCells_frame todo rest _ _ Hnotin).
      unfold store, offset. simpl. rewrite Z.eqb_refl. reflexivity.
  - reflexivity.
Qed.

(** X21.  [main] calls [readBoard] twice on the file.  The second call
    succeeds exactly when the first does and leaves every byte as the first
    left it, so: when [readBoard] fails on the file, [main] stops without
    playing; when it succeeds, [play] runs on the board one call of
    [readBoard] gives, with the Musketeers to move. *)
Theorem main_plays_the_board_read
  (start : memory) (file : option (list ascii)) (opens : bool)
  (inputs : list (list ascii)) :
  (fst (readBoard start file) = false -> main start file opens inputs = None)
  /\ (fst (readBoard start file) = true ->
      exists board2,
        main start file opens inputs = Some (play opens inputs (Game board2 true))
        /\ forall off, board2 off = snd (readBoard start file) off).
Proof.
  unfold main, readBoard.
  destruct file as [chars |]; [| split; [reflexivity | discriminate]].
  fold positions.
  pose proof (readCells_fst positions chars start
                (snd (readCells positions chars start))) as Hfst.
  pose proof (readCells_twice positions positions_offsets_NoDup chars start) as Hsnd.
  destruct (readCells positions chars start) as [ok1 board1]. cbn [fst snd] in *.
  destruct (readCells positions chars board1) as [ok2 board2]. cbn [fst snd] in *.
  subst ok2. split; intros ->; [reflexivity |].
  exists board2. split; [reflexivity | exact Hsnd].
Qed.

(** ** The two formats of a move *)

Lemma skipSpace_spaces (spaces : list ascii) (c : ascii) (rest : list ascii) :
  Forall (fun x => isspace x = true) spaces -> isspace c = false ->
  skipSpace (spaces ++ c :: rest) = c :: rest.
Proof.
  intros Hsp Hc. induction Hsp as [| x xs Hx _ IH]; simpl.
  - rewrite Hc. reflexivity.
  - rewrite Hx. exact IH.
Qed.

Lemma skipSpace_nonspace (c : ascii) (rest : list ascii) :
  isspace c = false -> skipSpace (c :: rest) = c :: rest.
Proof. intros Hc. simpl. rewrite Hc. reflexivity. Qed.

(** X22.  A move may have white space before its [=] sign, and then after
    it too: the direction is the next character that is not white space.
    With white space after the [=] sign only, the first format matches and
    the direction stored is that white space character.  (The row
    character, the column character and the direction are characters of the
    string in the buffer: none of them is the NUL that ends it.) *)
Theorem scanMove_spaces_around_equals
  (a b d : ascii) (before after rest : list ascii) :
  a <> "000" -> b <> "000" -> d <> "000" ->
  isspace a = false ->
  Forall (fun x => isspace x = true) before ->
  Forall (fun x => isspace x = true) after ->
  isspace d = false ->
  (before <> [] \/ after = [] ->
   scanMove (a :: "," :: b :: before ++ "=" :: after ++ d :: rest) = Some d)
  /\ (forall s after',
        after = s :: after' ->
        scanMove (a :: "," :: b :: "=" :: after ++ d :: rest) = Some s).
Proof.
  intros _ _ _ Ha Hbefore Hafter Hd. split.
  - intros Hshape. unfold scanMove, formatTight, formatSpaced.
    cbn [sscanf]. rewrite (skipSpace_nonspace a _ Ha). cbn [sscanf].
    rewrite Ascii.eqb_refl.
    destruct before as [| s before'].
    + destruct Hshape as [H | ->]; [contradiction |].
      simpl. reflexivity.
    + inversion Hbefore as [| x xs Hs Hbefore']; subst.
      change ((s :: before') ++ "=" :: after ++ d :: rest)
        with (s :: (before' ++ "=" :: after ++ d :: rest)).
      cbn [sscanf].
      assert (Hne : Ascii.eqb s "=" = false).
      { destruct (Ascii.eqb_spec s "=") as [-> |]; [discriminate Hs | reflexivity]. }
      rewrite Hne.
      change (s :: before' ++ "=" :: after ++ d :: rest)
        with ((s :: before') ++ "=" :: after ++ d :: rest).
      rewrite (skipSpace_spaces (s :: before') "=" _ Hbefore eq_refl).
      cbn [sscanf]. rewrite (skipSpace_spaces after d rest Hafter Hd).
      reflexivity.
  - intros s after' ->. unfold scanMove, formatTight.
    cbn [sscanf]. rewrite (skipSpace_nonspace a _ Ha). cbn [sscanf].
    rewrite Ascii.eqb_refl. simpl. reflexivity.
Qed.

Lemma scanMove_spaces_around_equals_witness :
  ("a" : ascii) <> "000" /\ ("1" : ascii) <> "000" /\ ("r" : ascii) <> "000"
  /\ isspace "a" = false
  /\ Forall (fun x => isspace x = true) [" "]
  /\ Forall (fun x => isspace x = true) [" "]
  /\ isspace "r" = false
  /\ (([" "] : list ascii) <> [] \/ ([" "] : list ascii) = [] ->
      scanMove ("a" :: "," :: "1" :: [" "] ++ "=" :: [" "] ++ "r" :: []) = Some "r")
  /\ (forall s after',
        [" "] = s :: after' ->
        scanMove ("a" :: "," :: "1" :: "=" :: [" "] ++ "r" :: []) = Some s).
Proof.
  assert (Hna : ("a" : ascii) <> "000") by discriminate.
  assert (Hnb : ("1" : ascii) <> "000") by discriminate.
  assert (Hnd : ("r" : ascii) <> "000") by discriminate.
  assert (Ha : isspace "a" = false) by reflexivity.
  assert (Hsp : Forall (fun x => isspace x = true) [" "])
    by (constructor; [reflexivity | constructor]).
  assert (Hd : isspace "r" = false) by reflexivity.
  split; [exact Hna |]. split; [exact Hnb |]. split; [exact Hnd |].
  split; [exact Ha |]. split; [exact Hsp |]. split; [exact Hsp |].
  split; [exact Hd |].
  exact (scanMove_spaces_around_equals "a" "1" "r" [" "] [" "] []
           Hna Hnb Hnd Ha Hsp Hsp Hd).
Defined.

(** ** What [readBoard] accepts, and what it then holds *)

(** The files [readBoard] accepts. *)
Lemma readBoard_accepts (start : memory) (chars : list ascii) :
  fst (readBoard start (Some chars)) = true
  <-> (25 <= List.length (unblank chars))%nat
      /\ forallb isSymbol (firstn 25 (unblank chars)) = true.
Proof.
  unfold readBoard. fold positions.
  rewrite <- readCells_unblank.
  apply (readCells_accepts positions (unblank chars) start), unblank_nonblank.
Qed.

(** The cells of the board read. *)
Lemma readBoard_cells (start : memory) (chars : list ascii) (i k : Z) :
  fst (readBoard start (Some chars)) = true ->
  inGrid i k ->
  cell (snd (readBoard start (Some chars))) i k
  = nth (Z.to_nat (i * N + k)) (unblank chars) "000".
Proof.
  intros Hread Hin.
  unfold readBoard in *. fold positions in *.
  rewrite <- readCells_unblank in *.
  destruct (readCells positions (unblank chars) start) as [ok board'] eqn:E.
  cbn [fst snd] in *. subst ok.
  pose proof (readCells_values positions positions_offsets_NoDup (unblank chars)
                start board' (unblank_nonblank chars) E
                (Z.to_nat (i * N + k))) as Hval.
  rewrite (nth_positions i k Hin) in Hval. unfold cell.
  apply Hval. change (List.length positions) with 25%nat.
  destruct Hin as [Hi Hk]. unfold N in *. lia.
Qed.

(** C8, as the code has it.  [readBoard] returns success exactly when the
    file, its spaces and newlines skipped, holds at least twenty-five
    characters of which the first twenty-five are ['M'], ['o'] or ['.']:
    another character, or the end of the file, before the twenty-fifth cell
    makes it fail, as does a file that cannot be opened.  On success the
    board holds those twenty-five characters, row by row, so that every cell
    is a cell symbol.  The Musketeers are not counted: the text of every
    board of such cells is accepted, whatever their number. *)
Theorem readBoard_accepts_symbols_only :
  (forall (start : memory) (chars : list ascii),
     fst (readBoard start (Some chars)) = true
     <-> (25 <= List.length (unblank chars))%nat
         /\ forallb isSymbol (firstn 25 (unblank chars)) = true)
  /\ (forall start : memory, readBoard start None = (false, start))
  /\ (forall (start : memory) (chars : list ascii) (i k : Z),
        fst (readBoard start (Some chars)) = true ->
        inGrid i k ->
        cell (snd (readBoard start (Some chars))) i k
        = nth (Z.to_nat (i * N + k)) (unblank chars) "000")
  /\ (forall (start : memory) (file : option (list ascii)),
        fst (readBoard start file) = true ->
        validBoard (snd (readBoard start file)))
  /\ (forall (board start : memory),
        validBoard board ->
        fst (readBoard start (Some (boardText board))) = true).
Proof.
  split; [exact readBoard_accepts |].
  split; [reflexivity |].
  split; [exact readBoard_cells |].
  split.
  - intros start [chars |] Hread; [| discriminate Hread].
    intros row col Hin.
    unfold readBoard in *. fold positions in *.
    destruct (readCells positions chars start) as [ok board'] eqn:E.
    cbn [fst snd] in *. subst ok.
    apply (readCells_success positions positions_offsets_NoDup chars start board' E).
    apply in_positions, Hin.
  - intros board start Hvalid.
    destruct (readBoard_boardText board start Hvalid) as (board' & -> & _).
    reflexivity.
Qed.

Lemma readBoard_accepts_symbols_only_witness :
  (fst (readBoard blank (Some enemiesOnlyFile)) = true
   /\ (25 <= List.length (unblank enemiesOnlyFile))%nat
   /\ forallb isSymbol (firstn 25 (unblank enemiesOnlyFile)) = true
   /\ cell (snd (readBoard blank (Some enemiesOnlyFile))) 1 4
      = nth (Z.to_nat (1 * N + 4)) (unblank enemiesOnlyFile) "000"
   /\ validBoard (snd (readBoard blank (Some enemiesOnlyFile))))
  /\ (fst (readBoard blank (Some truncatedFile)) = true -> False)
  /\ (fst (readBoard blank (Some strayCharFile)) = true -> False)
  /\ (validBoard cornerBoard
      /\ fst (readBoard blank (Some (boardText cornerBoard))) = true).
Proof.
  destruct readBoard_accepts_symbols_only as (Hiff & _ & Hcells & Hvalid & Htext).
  assert (Hread : fst (readBoard blank (Some enemiesOnlyFile)) = true)
    by reflexivity.
  assert (Hin : inGrid 1 4) by (unfold inGrid, N; lia).
  split.
  { split; [exact Hread |].
    destruct (proj1 (Hiff blank enemiesOnlyFile) Hread) as [Hlen Hsym].
    split; [exact Hlen |]. split; [exact Hsym |].
    split; [exact (Hcells blank enemiesOnlyFile 1 4 Hread Hin) |].
    exact (Hvalid blank (Some enemiesOnlyFile) Hread). }
  split.
  { intros H. apply (Hiff blank truncatedFile) in H as [Hlen _].
    vm_compute in Hlen. lia. }
  split.
  { intros H. apply (Hiff blank strayCharFile) in H as [_ Hsym].
    vm_compute in Hsym. discriminate Hsym. }
  split; [exact validBoard_cornerBoard |].
  exact (Htext cornerBoard blank validBoard_cornerBoard).
Defined.
